(** * mail-agent: the label matcher and the retention evaluator

    A shallow embedding of [src/classifier.py] (class [EmailClassifier]) and
    [src/cleaner.py] (class [EmailCleaner]), and the properties of the two
    decision engines.

    Conventions of the embedding.
    - Python [str] values are [string]s over 8-bit characters; [str.lower]
      and [str.strip] are modelled on the ASCII range.
    - An email is the dictionary the providers build: the text fields are
      always there, [labels] and [flags] are optional keys.
    - A criteria dictionary has optional keys bound to lists.
    - Exceptions are values of [outcome]; a [try]/[except Exception] is a
      match on it.
    - [email.utils.parseaddr], [email.utils.parsedate_to_datetime] and
      [datetime.now] belong to the Python library: the functions that call
      them take them as section variables. *)

From Stdlib Require Import ZArith Ascii String List Bool Lia.
From stdpp Require Import gmap strings list.

Open Scope string_scope.
Open Scope list_scope.

(* ===================================================================== *)
(** ** Python string operations used by the two modules *)
(* ===================================================================== *)

Module PyStr.

(** [c.isspace()] on the ASCII range: TAB..CR, FS..US and the space. *)
Definition is_space (c : ascii) : bool :=
  let n := nat_of_ascii c in
  ((9 <=? n)%nat && (n <=? 13)%nat) || ((28 <=? n)%nat && (n <=? 32)%nat).

Definition lower_char (c : ascii) : ascii :=
  let n := nat_of_ascii c in
  if ((65 <=? n)%nat && (n <=? 90)%nat) then ascii_of_nat (n + 32) else c.

(** [s.lower()] *)
Fixpoint lower (s : string) : string :=
  match s with
  | EmptyString => EmptyString
  | String c s' => String (lower_char c) (lower s')
  end.

(** [s.startswith(p)] *)
Fixpoint startswith (s p : string) : bool :=
  match p, s with
  | EmptyString, _ => true
  | String _ _, EmptyString => false
  | String b p', String a s' => Ascii.eqb a b && startswith s' p'
  end.

(** [needle in hay] for two strings: a contiguous occurrence. *)
Fixpoint contains (needle hay : string) : bool :=
  startswith hay needle ||
  match hay with
  | EmptyString => false
  | String _ hay' => contains needle hay'
  end.

(** [s.endswith(suffix)] *)
Fixpoint endswith (s suffix : string) : bool :=
  String.eqb s suffix ||
  match s with
  | EmptyString => false
  | String _ s' => endswith s' suffix
  end.

(** [s.split(sep)] for a one-character separator: never the empty list. *)
Fixpoint split (sep : ascii) (s : string) : list string :=
  match s with
  | EmptyString => [EmptyString]
  | String c s' =>
      if Ascii.eqb c sep then EmptyString :: split sep s'
      else match split sep s' with
           | piece :: pieces => String c piece :: pieces
           | [] => [String c EmptyString]
           end
  end.

Definition lstrip_step (c : ascii) (rest stripped : string) : string :=
  if is_space c then stripped else String c rest.

Fixpoint lstrip (s : string) : string :=
  match s with
  | EmptyString => EmptyString
  | String c s' => lstrip_step c s' (lstrip s')
  end.

Fixpoint rstrip (s : string) : string :=
  match s with
  | EmptyString => EmptyString
  | String c s' =>
      match rstrip s' with
      | EmptyString => if is_space c then EmptyString else String c EmptyString
      | r => String c r
      end
  end.

(** [s.strip()] *)
Definition strip (s : string) : string := rstrip (lstrip s).

(** The longest prefix without [stop], and what follows it. *)
Fixpoint span_until (stop : ascii) (s : string) : string * string :=
  match s with
  | EmptyString => (EmptyString, EmptyString)
  | String c s' =>
      if Ascii.eqb c stop then (EmptyString, s)
      else let '(run, rest) := span_until stop s' in (String c run, rest)
  end.

(** [re.search(r'<([^>]+)>', s)]: group 1 of the leftmost match, [None]
    when there is none.  At a ['<'] the greedy class takes the whole run of
    characters other than ['>']; the match succeeds there iff that run is
    not empty and a ['>'] follows it. *)
Fixpoint re_search_angle (s : string) : option string :=
  match s with
  | EmptyString => None
  | String c s' =>
      if Ascii.eqb c "<"%char then
        match span_until ">"%char s' with
        | (String g gs, String _ _) => Some (String g gs)
        | _ => re_search_angle s'
        end
      else re_search_angle s'
  end.

(** A string without the character [c]. *)
Fixpoint lacks (c : ascii) (s : string) : bool :=
  match s with
  | EmptyString => true
  | String a s' => negb (Ascii.eqb a c) && lacks c s'
  end.

(** [needle] occurs in [hay]: the meaning of Python's [in] on strings. *)
Definition occurs_in (needle hay : string) : Prop :=
  exists before after, hay = before +:+ needle +:+ after.

(** [s] ends with [suffix]. *)
Definition has_suffix (s suffix : string) : Prop :=
  exists before, s = before +:+ suffix.

End PyStr.

(* ===================================================================== *)
(** ** Data model *)
(* ===================================================================== *)

(** The email dictionary built by the providers. *)
Record Email := mkEmail {
  msg_id : string;
  subject : string;
  from_ : string;
  body : string;
  date : string;
  labels : option (list string);
  flags : option (list string)
}.

(** The [criteria] dictionary of a label configuration: every key optional. *)
Record Criteria := mkCriteria {
  c_from : option (list string);
  c_from_domain : option (list string);
  c_from_name : option (list string);
  c_subject_contains : option (list string);
  c_body_contains : option (list string)
}.

Record LabelConfig := mkLabelConfig {
  name : string;
  criteria : Criteria
}.

(** The cleaning configuration.  [config.get(k, False)] reads a missing
    boolean key as [False] and [config.get('newsletter_domains', [])] a
    missing list as empty; [config.get('delete_older_than')] is [None] when
    the key is missing. *)
Record CleanConfig := mkCleanConfig {
  delete_newsletters : bool;
  newsletter_domains : list string;
  delete_older_than : option Z;
  delete_read : bool
}.

(** The result of a call that may raise. *)
Inductive outcome (A : Type) : Type :=
| Returned (a : A)
| Raised (exc : string).
Arguments Returned {A} a.
Arguments Raised {A} exc.

(** A [datetime]: naive (wall-clock microseconds since 0001-01-01) or
    aware (microseconds of the absolute instant, same origin in UTC). *)
Inductive datetime : Type :=
| Naive (t : Z)
| Aware (t : Z).

(** [k in d and d[k]]: the key is there and its list is not empty. *)
Definition truthy (field : option (list string)) : bool :=
  match field with
  | Some (_ :: _) => true
  | _ => false
  end.

(** [d[k]] once [truthy] holds. *)
Definition entries (field : option (list string)) : list string :=
  match field with
  | Some l => l
  | None => []
  end.

(** The dictionary updates [d['from_name'] = v] and
    [d['delete_older_than'] = v] ([None] for a key that is left out). *)
Definition set_from_name (c : Criteria) (v : option (list string)) : Criteria :=
  {| c_from := c_from c; c_from_domain := c_from_domain c;
     c_from_name := v;
     c_subject_contains := c_subject_contains c;
     c_body_contains := c_body_contains c |}.

Definition set_delete_older_than (p : CleanConfig) (v : option Z) : CleanConfig :=
  {| delete_newsletters := delete_newsletters p;
     newsletter_domains := newsletter_domains p;
     delete_older_than := v;
     delete_read := delete_read p |}.

(* ===================================================================== *)
(** ** classifier.py: EmailClassifier *)
(* ===================================================================== *)

Module Classifier.
Import PyStr.

Section WithParseaddr.

(** [email.utils.parseaddr]: the display name and the address. *)
Variable parseaddr : string -> string * string.

Definition extract_email (from_field : string) : string :=
  snd (parseaddr from_field).

Definition extract_name (from_field : string) : string :=
  fst (parseaddr from_field).

(** [email.split('@')[1]], and [""] on [IndexError]. *)
Definition extract_domain (from_field : string) : string :=
  let email := snd (parseaddr from_field) in
  match split "@"%char email !! 1%nat with
  | Some domain => domain
  | None => EmptyString
  end.

Definition check_alternate_from_criteria
    (email_data : Email) (criteria : Criteria) : bool :=
  if truthy (c_from_name criteria) then
    let sender_name := extract_name (from_ email_data) in
    if existsb (fun name => contains (lower name) (lower sender_name))
               (entries (c_from_name criteria))
    then true else false
  else false.

(** The four blocks of [_matches_criteria]: each is [false] exactly when
    its block executes [return False]. *)
Definition from_ok (email_data : Email) (criteria : Criteria) : bool :=
  if truthy (c_from criteria) then
    let sender_email := extract_email (from_ email_data) in
    if negb (existsb (fun from_addr =>
                        String.eqb (lower sender_email) (lower from_addr))
                     (entries (c_from criteria)))
    then
      if negb (check_alternate_from_criteria email_data criteria)
      then false else true
    else true
  else true.

Definition from_domain_ok (email_data : Email) (criteria : Criteria) : bool :=
  if truthy (c_from_domain criteria) then
    let sender_domain := extract_domain (from_ email_data) in
    if negb (existsb (fun domain =>
                        endswith (lower sender_domain) (lower domain))
                     (entries (c_from_domain criteria)))
    then false else true
  else true.

Definition subject_ok (email_data : Email) (criteria : Criteria) : bool :=
  if truthy (c_subject_contains criteria) then
    let subject := lower (subject email_data) in
    if negb (existsb (fun keyword => contains (lower keyword) subject)
                     (entries (c_subject_contains criteria)))
    then false else true
  else true.

Definition body_ok (email_data : Email) (criteria : Criteria) : bool :=
  if truthy (c_body_contains criteria) then
    let body := lower (body email_data) in
    if negb (existsb (fun keyword => contains (lower keyword) body)
                     (entries (c_body_contains criteria)))
    then false else true
  else true.

Definition matches_criteria (email_data : Email) (criteria : Criteria) : bool :=
  if negb (from_ok email_data criteria) then false
  else if negb (from_domain_ok email_data criteria) then false
  else if negb (subject_ok email_data criteria) then false
  else if negb (body_ok email_data criteria) then false
  else true.

Fixpoint rule_based_classify
    (label_configs : list LabelConfig) (email_data : Email) : list string :=
  match label_configs with
  | [] => []
  | label_config :: rest =>
      if matches_criteria email_data (criteria label_config)
      then name label_config :: rule_based_classify rest email_data
      else rule_based_classify rest email_data
  end.

Definition dummy_llm_call (email_data : Email) : list string := [].

Definition llm_classify (email_data : Email) : list string :=
  dummy_llm_call email_data.

(** [list(set(l))]: the elements of the set, each once, in the order of
    the set's own iteration. *)
Definition list_of_set (l : list string) : list string :=
  elements (list_to_set l : gset string).

Definition classify
    (label_configs : list LabelConfig) (email_data : Email) : list string :=
  let rule_based_labels := rule_based_classify label_configs email_data in
  if negb (bool_decide (rule_based_labels <> [])) || true then
    let llm_labels := llm_classify email_data in
    list_of_set (rule_based_labels ++ llm_labels)
  else rule_based_labels.

(** The sender address equals, without regard to case, an entry of
    [addrs]. *)
Definition address_listed (email_data : Email) (addrs : list string) : Prop :=
  exists a, In a addrs /\
    lower (extract_email (from_ email_data)) = lower a.

(** [from_name] is there and one of its entries occurs, without regard to
    case, in the display name. *)
Definition name_rescues (email_data : Email) (criteria : Criteria) : Prop :=
  exists names, c_from_name criteria = Some names /\
    exists n, In n names /\
      occurs_in (lower n) (lower (extract_name (from_ email_data))).

(** The lowercased sender domain ends with a lowercased entry of
    [domains]. *)
Definition domain_listed (email_data : Email) (domains : list string) : Prop :=
  exists d, In d domains /\
    has_suffix (lower (extract_domain (from_ email_data))) (lower d).

End WithParseaddr.

(** Modelled from the spec: [email.utils.parseaddr] is not code of the
    repository.  Section 4.1: "split display name from angle-bracket
    address, or treat the whole string as an address if no angle brackets
    are present".  Used for the concrete headers of the examples only. *)
Definition parseaddr_model (from_field : string) : string * string :=
  let '(display, rest) := span_until "<"%char from_field in
  match rest with
  | String _ inside => (strip display, fst (span_until ">"%char inside))
  | EmptyString => (EmptyString, strip from_field)
  end.

End Classifier.

(* ===================================================================== *)
(** ** cleaner.py: EmailCleaner *)
(* ===================================================================== *)

Module Cleaner.
Import PyStr.

(** The address [_extract_domain] splits: group 1 of the angle-bracket
    match, else the stripped field. *)
Definition sender_address (from_field : string) : string :=
  match re_search_angle from_field with
  | Some email => email
  | None => strip from_field
  end.

(** [email.split('@')[-1]]; no step of the body raises on a string. *)
Definition extract_domain (from_field : string) : string :=
  let email := sender_address from_field in
  match last (split "@"%char email) with
  | Some domain => domain
  | None => EmptyString
  end.

Definition newsletter_keywords : list string :=
  ["newsletter"; "subscribe"; "update"; "digest"; "weekly"; "monthly"].

Definition is_newsletter (config : CleanConfig) (email : Email) : bool :=
  let sender_domain := extract_domain (from_ email) in
  if existsb (fun domain => contains (lower domain) (lower sender_domain))
             (newsletter_domains config)
  then true
  else
    let subject := lower (subject email) in
    if existsb (fun keyword => contains keyword subject) newsletter_keywords
    then true
    else if contains "unsubscribe" (lower (body email)) then true
    else false.

Definition is_read (email : Email) : bool :=
  if (match labels email with
      | Some ls => negb (existsb (String.eqb "UNREAD") ls)
      | None => false
      end)
  then true
  else if (match flags email with
           | Some fs => existsb (String.eqb "\Seen") fs
           | None => false
           end)
  then true
  else false.

(** The range of [datetime]: 0001-01-01 to 9999-12-31, in microseconds. *)
Definition us_per_day : Z := 86400000000.
Definition datetime_span : Z := 3652059 * us_per_day.

(** [timedelta(days=n)]: [OverflowError] beyond 999999999 days. *)
Definition timedelta_days (n : Z) : option Z :=
  if (Z.abs n <=? 999999999)%Z then Some (n * us_per_day)%Z else None.

(** [t - delta] on a naive datetime: [OverflowError] out of range. *)
Definition datetime_sub (t delta : Z) : option Z :=
  let r := (t - delta)%Z in
  if ((0 <=? r) && (r <? datetime_span))%Z then Some r else None.

(** [a < b] on datetimes: [TypeError] when one is naive and one aware. *)
Definition datetime_lt (a b : datetime) : outcome bool :=
  match a, b with
  | Naive x, Naive y => Returned (x <? y)%Z
  | Aware x, Aware y => Returned (x <? y)%Z
  | _, _ => Raised "TypeError"
  end.

(** The two provider methods [clean] calls, over the provider's state. *)
Record EmailProvider (S : Type) := mkProvider {
  get_all_emails : S -> outcome (list Email) * S;
  delete_email : Email -> S -> outcome bool * S
}.
Arguments get_all_emails {S} _ _.
Arguments delete_email {S} _ _ _.

Section WithClock.

(** [email.utils.parsedate_to_datetime]: [None] when it raises. *)
Variable parsedate_to_datetime : string -> option datetime.
(** [datetime.now()]: a naive datetime, given by its microseconds. *)
Variable now : Z.

(** Every exception of the body is caught and answered with [False]. *)
Definition is_too_old (email : Email) (max_age_days : Z) : bool :=
  match parsedate_to_datetime (date email) with
  | None => false
  | Some email_date =>
      match timedelta_days max_age_days with
      | None => false
      | Some delta =>
          match datetime_sub now delta with
          | None => false
          | Some cutoff_date =>
              match datetime_lt email_date (Naive cutoff_date) with
              | Returned b => b
              | Raised _ => false
              end
          end
      end
  end.

(** [config.get('delete_older_than') and ...]: [None] and [0] are falsy. *)
Definition should_delete (config : CleanConfig) (email : Email) : bool :=
  if delete_newsletters config && is_newsletter config email then true
  else if (match delete_older_than config with
           | Some days =>
               negb (days =? 0)%Z && is_too_old email days
           | None => false
           end)
  then true
  else if delete_read config && is_read email then true
  else false.

(** The [for] loop of [clean], inside the [try]: an exception leaves the
    loop for the handler, which returns [cleaned_count] as it stands. *)
Fixpoint clean_loop {S : Type} (email_provider : EmailProvider S)
    (config : CleanConfig) (emails : list Email)
    (cleaned_count : nat) (st : S) : nat * S :=
  match emails with
  | [] => (cleaned_count, st)
  | email :: rest =>
      if should_delete config email then
        match delete_email email_provider email st with
        | (Returned true, st') =>
            clean_loop email_provider config rest (cleaned_count + 1) st'
        | (Returned false, st') =>
            clean_loop email_provider config rest cleaned_count st'
        | (Raised _, st') => (cleaned_count, st')
        end
      else clean_loop email_provider config rest cleaned_count st
  end.

Definition clean {S : Type} (email_provider : EmailProvider S)
    (config : CleanConfig) (st : S) : nat * S :=
  let cleaned_count := 0%nat in
  match get_all_emails email_provider st with
  | (Returned emails, st') =>
      clean_loop email_provider config emails cleaned_count st'
  | (Raised _, st') => (cleaned_count, st')
  end.

End WithClock.

(** A provider that also records every [delete_email] call with its
    result, as the test's mock does. *)
Abbreviation call_log := (list (Email * outcome bool)).

Definition recording {S : Type} (p : EmailProvider S)
  : EmailProvider (S * call_log) :=
  {| get_all_emails := fun '(st, log) =>
       let '(r, st') := get_all_emails p st in (r, (st', log));
     delete_email := fun email '(st, log) =>
       let '(r, st') := delete_email p email st in
       (r, (st', log ++ [(email, r)])) |}.

Definition succeeded (r : outcome bool) : bool :=
  match r with
  | Returned true => true
  | _ => false
  end.

Definition raised (r : outcome bool) : bool :=
  match r with
  | Raised _ => true
  | _ => false
  end.

(** Some call of the log raised. *)
Definition any_raised (log : call_log) : bool :=
  existsb (fun call => raised (snd call)) log.

(** The calls of a log that returned success. *)
Definition successes (log : call_log) : nat :=
  length (List.filter (fun call => succeeded (snd call)) log).

(** The batch operation as the spec presents it, [clean(all_emails,
    policy, delete_fn)]: a provider without state of its own, whose
    enumeration answers [all_emails] and whose deletion is [delete_fn]. *)
Definition callback_provider (all_emails : outcome (list Email))
    (delete_fn : Email -> outcome bool) : EmailProvider unit :=
  {| get_all_emails := fun st => (all_emails, st);
     delete_email := fun email st => (delete_fn email, st) |}.

End Cleaner.

(* ===================================================================== *)
(** ** Concrete emails, rules and policies *)
(* ===================================================================== *)

Module Examples.

Definition plain_email (sender subj text : string) : Email :=
  {| msg_id := "1"; subject := subj; from_ := sender; body := text;
     date := "Mon, 16 Mar 2020 10:00:00 +0000";
     labels := None; flags := None |}.

Definition no_criteria : Criteria :=
  {| c_from := None; c_from_domain := None; c_from_name := None;
     c_subject_contains := None; c_body_contains := None |}.

(** [{'from_domain': ['company.com']}] *)
Definition work_criteria : Criteria :=
  {| c_from := None; c_from_domain := Some ["company.com"];
     c_from_name := None;
     c_subject_contains := None; c_body_contains := None |}.

(** [{'from': []}] *)
Definition empty_from_criteria : Criteria :=
  {| c_from := Some []; c_from_domain := None; c_from_name := None;
     c_subject_contains := None; c_body_contains := None |}.

(** [{'from_domain': []}] *)
Definition empty_domain_criteria : Criteria :=
  {| c_from := None; c_from_domain := Some []; c_from_name := None;
     c_subject_contains := None; c_body_contains := None |}.

(** [{'from': ['boss@company.com'], 'from_name': ['boss']}] *)
Definition boss_criteria : Criteria :=
  {| c_from := Some ["boss@company.com"]; c_from_domain := None;
     c_from_name := Some ["boss"];
     c_subject_contains := None; c_body_contains := None |}.

Definition no_policy : CleanConfig :=
  {| delete_newsletters := false; newsletter_domains := [];
     delete_older_than := None; delete_read := false |}.

(** [{'delete_older_than': 0}] *)
Definition zero_days_policy : CleanConfig :=
  {| delete_newsletters := false; newsletter_domains := [];
     delete_older_than := Some 0%Z; delete_read := false |}.

(** [{'delete_older_than': 30}] *)
Definition thirty_days_policy : CleanConfig :=
  {| delete_newsletters := false; newsletter_domains := [];
     delete_older_than := Some 30%Z; delete_read := false |}.

(** [{'delete_read': True}] *)
Definition read_policy : CleanConfig :=
  {| delete_newsletters := false; newsletter_domains := [];
     delete_older_than := None; delete_read := true |}.

(** 2020-03-16 10:00:00 (day 737500 of the calendar) and
    2026-11-03 12:00:00 (day 739923), in microseconds. *)
Definition t_2020_03_16 : Z := (737499 * 86400 + 36000) * 1000000.
Definition t_2026_11_03 : Z := (739922 * 86400 + 43200) * 1000000.

(** What [parsedate_to_datetime] answers on three date strings: an offset
    [+0000] gives an aware datetime, [-0000] a naive one, and a string
    that is no date raises. *)
Definition parsedate_example (s : string) : option datetime :=
  if String.eqb s "Mon, 16 Mar 2020 10:00:00 +0000"
  then Some (Aware t_2020_03_16)
  else if String.eqb s "Mon, 16 Mar 2020 10:00:00 -0000"
  then Some (Naive t_2020_03_16)
  else None.

(** An email of March 2020 whose [Date] header carries the offset +0000. *)
Definition old_email : Email :=
  plain_email "sender@example.com" "Old email" "This is an old email".

(** The same email with the offset written -0000. *)
Definition old_email_naive : Email :=
  {| msg_id := "2"; subject := "Old email"; from_ := "sender@example.com";
     body := "This is an old email";
     date := "Mon, 16 Mar 2020 10:00:00 -0000";
     labels := None; flags := None |}.

(** Two read Gmail messages. *)
Definition read_email (ident : string) : Email :=
  {| msg_id := ident; subject := "Read email"; from_ := "sender@example.com";
     body := "This is a read email";
     date := "Mon, 16 Mar 2020 10:00:00 -0000";
     labels := Some ["INBOX"]; flags := None |}.

(** A deletion that raises on message 1 and succeeds on every other. *)
Definition failing_delete (email : Email) : outcome bool :=
  if String.eqb (msg_id email) "1" then Raised "HttpError"
  else Returned true.

(** The label configurations and the cleaning configuration of the
    repository's tests. *)
Definition test_label_configs : list LabelConfig :=
  [ {| name := "Important";
       criteria := {| c_from := Some ["boss@company.com"];
                      c_from_domain := None; c_from_name := None;
                      c_subject_contains := Some ["urgent"];
                      c_body_contains := None |} |};
    {| name := "Work"; criteria := work_criteria |} ].

Definition test_cleaning_config : CleanConfig :=
  {| delete_newsletters := true;
     newsletter_domains := ["newsletter.com"; "marketing.com"];
     delete_older_than := Some 30%Z; delete_read := true |}.

(** The four emails of [test_clean], seen on 2026-11-03: 10, 40, 10 and
    10 days old. *)
Definition test_email (ident subj sender text day : string)
    (ls : list string) : Email :=
  {| msg_id := ident; subject := subj; from_ := sender; body := text;
     date := day; labels := Some ls; flags := None |}.

Definition test_emails : list Email :=
  [ test_email "1" "Newsletter" "info@newsletter.com"
      "Here are the latest news" "Sat, 24 Oct 2026 12:00:00 " ["INBOX"];
    test_email "2" "Old email" "sender@example.com"
      "This is an old email" "Thu, 24 Sep 2026 12:00:00 " ["INBOX"; "UNREAD"];
    test_email "3" "Read email" "sender@example.com"
      "This is a read email" "Sat, 24 Oct 2026 12:00:00 " ["INBOX"];
    test_email "4" "Keep me" "important@example.com"
      "This email should be kept" "Sat, 24 Oct 2026 12:00:00 "
      ["INBOX"; "UNREAD"] ].

(** The parser the test patches in: naive datetimes 40 and 10 days
    before now. *)
Definition parsedate_mock (s : string) : option datetime :=
  if String.eqb s "Thu, 24 Sep 2026 12:00:00 "
  then Some (Naive (t_2026_11_03 - 40 * 86400000000))
  else Some (Naive (t_2026_11_03 - 10 * 86400000000)).

(** [{'delete_newsletters': True, 'newsletter_domains': entries}] *)
Definition newsletter_policy (entries : list string) : CleanConfig :=
  {| delete_newsletters := true; newsletter_domains := entries;
     delete_older_than := None; delete_read := false |}.

(** What [parseaddr] answers on the headers of the examples: a comment
    in parentheses after the address becomes the display name; on the
    other headers the bracketed group, or else the stripped header, is
    the address. *)
Definition parseaddr_example (from_field : string) : string * string :=
  if String.eqb from_field "x@y.org (Big Boss)" then ("Big Boss", "x@y.org")
  else Classifier.parseaddr_model from_field.

End Examples.

(* ===================================================================== *)
(** ** email_provider.py: the factory, the Gmail body and the IMAP provider *)
(* ===================================================================== *)

Module Provider.
Import PyStr.

Definition upper_char (c : ascii) : ascii :=
  let n := nat_of_ascii c in
  if ((97 <=? n)%nat && (n <=? 122)%nat) then ascii_of_nat (n - 32) else c.

(** [s.upper()] on the ASCII range. *)
Fixpoint upper (s : string) : string :=
  match s with
  | EmptyString => EmptyString
  | String c s' => String (upper_char c) (upper s')
  end.

(** [s.replace(old, new)] for two characters. *)
Fixpoint replace (old new : ascii) (s : string) : string :=
  match s with
  | EmptyString => EmptyString
  | String c s' =>
      String (if Ascii.eqb c old then new else c) (replace old new s')
  end.

(** *** get_email_provider *)

(** The [other] and [gmail] sections of the [email] configuration; the
    factory reads [username] only and hands the section to the class. *)
Record OtherSection := mkOther {
  imap_server : string;
  username : option string
}.

Record GmailSection := mkGmail {
  token_file : string;
  credentials_file : string
}.

Record EmailConfig := mkEmailConfig {
  provider : option string;
  other : option OtherSection;
  gmail : option GmailSection
}.

(** The class the factory instantiates and the section it passes. *)
Inductive provider_choice : Type :=
| GmailProvider (config : GmailSection)
| ImapProvider (config : OtherSection).

(** [config.get('other', {}).get('username', '')] *)
Definition other_username (config : EmailConfig) : string :=
  match other config with
  | Some section =>
      match username section with
      | Some u => u
      | None => EmptyString
      end
  | None => EmptyString
  end.

(** [config[k]] raises [KeyError] on a missing key. *)
Definition get_email_provider (config : EmailConfig) : outcome provider_choice :=
  let provider_type :=
    lower (match provider config with Some p => p | None => "auto" end) in
  let provider_type :=
    if String.eqb provider_type "auto" then
      let email_address := other_username config in
      if contains "@gmail.com" email_address then "gmail" else "other"
    else provider_type in
  if String.eqb provider_type "gmail" then
    match gmail config with
    | Some section => Returned (GmailProvider section)
    | None => Raised "KeyError"
    end
  else
    match other config with
    | Some section => Returned (ImapProvider section)
    | None => Raised "KeyError"
    end.

(** *** GmailProvider._get_email_body *)

(** A message part: its [mimeType], and [body.data] when both keys are
    there. *)
Record Part := mkPart {
  mimeType : string;
  body_data : option string
}.

(** A message payload: its [parts] when the key is there, and its own
    [body.data]. *)
Record Payload := mkPayload {
  parts : option (list Part);
  payload_data : option string
}.

Section WithDecoder.

(** [urlsafe_b64decode(data).decode('utf-8')]; it raises on data that is
    not base64 or not UTF-8. *)
Variable b64_utf8 : string -> outcome string.

Definition decode_data (field : option string) : outcome string :=
  match field with
  | Some data =>
      let data := replace "_"%char "/"%char (replace "-"%char "+"%char data) in
      b64_utf8 data
  | None => Returned EmptyString
  end.

Definition decode_part (part : Part) : outcome string :=
  decode_data (body_data part).

Fixpoint first_plain_part (ps : list Part) : outcome string :=
  match ps with
  | [] => Returned EmptyString
  | part :: rest =>
      if String.eqb (mimeType part) "text/plain" then decode_part part
      else first_plain_part rest
  end.

Definition get_email_body (payload : Payload) : outcome string :=
  match parts payload with
  | Some ps => first_plain_part ps
  | None =>
      match payload_data payload with
      | Some data => decode_data (Some data)
      | None => Returned EmptyString
      end
  end.

End WithDecoder.

(** *** ImapProvider *)

(** The calls made on the IMAP connection. *)
Inductive imap_call : Type :=
| Connect
| Store (message_set flag : string)
| Expunge
| Copy (message_set folder : string).

(** The IMAP library: [connect] tells whether [IMAP4_SSL] and [login]
    both went through; the other calls raise or answer with the response
    type, [OK] or [NO].  A command the server refuses answers [NO]
    without raising.  The provider reads the response type of [copy]
    only. *)
Record ImapServer (S : Type) := mkServer {
  connect : S -> bool * S;
  store : string -> string -> S -> outcome string * S;
  expunge : S -> outcome string * S;
  copy : string -> string -> S -> outcome string * S
}.
Arguments connect {S} _ _.
Arguments store {S} _ _ _ _.
Arguments expunge {S} _ _.
Arguments copy {S} _ _ _ _.

Section WithServer.

Context {S : Type}.
Variable server : ImapServer S.

(** The state of the provider: whether [self.conn] is set, and the
    server. *)
Definition imap_state : Type := bool * S.

(** [if not self.conn: self._connect()] *)
Definition ensure_conn (st : imap_state) : imap_state :=
  let '(conn, s) := st in
  if conn then st else connect server s.

Definition imap_flags : list string :=
  ["SEEN"; "FLAGGED"; "ANSWERED"; "DELETED"; "DRAFT"].

(** The [for] loop of [apply_labels], inside the [try]. *)
Fixpoint apply_labels_loop (ident : string) (labels : list string) (s : S)
  : outcome unit * S :=
  match labels with
  | [] => (Returned tt, s)
  | label :: rest =>
      if existsb (String.eqb (upper label)) imap_flags then
        match store server ident (String "\"%char label) s with
        | (Returned _, s') => apply_labels_loop ident rest s'
        | (Raised exc, s') => (Raised exc, s')
        end
      else apply_labels_loop ident rest s
  end.

Definition apply_labels (email_data : Email) (labels : list string)
    (st : imap_state) : bool * imap_state :=
  let '(conn, s) := ensure_conn st in
  if negb conn then (false, (conn, s))
  else
    match apply_labels_loop (msg_id email_data) labels s with
    | (Returned _, s') => (true, (conn, s'))
    | (Raised _, s') => (false, (conn, s'))
    end.

Definition mark_as_processed (email_data : Email) (st : imap_state)
  : bool * imap_state :=
  let '(conn, s) := ensure_conn st in
  if negb conn then (false, (conn, s))
  else
    match store server (msg_id email_data) "\Seen" s with
    | (Returned _, s') => (true, (conn, s'))
    | (Raised _, s') => (false, (conn, s'))
    end.

Definition delete_email (email_data : Email) (st : imap_state)
  : bool * imap_state :=
  let '(conn, s) := ensure_conn st in
  if negb conn then (false, (conn, s))
  else
    match store server (msg_id email_data) "\Deleted" s with
    | (Returned _, s1) =>
        match expunge server s1 with
        | (Returned _, s2) => (true, (conn, s2))
        | (Raised _, s2) => (false, (conn, s2))
        end
    | (Raised _, s1) => (false, (conn, s1))
    end.

Definition move_to_folder (email_data : Email) (folder : string)
    (st : imap_state) : bool * imap_state :=
  let '(conn, s) := ensure_conn st in
  if negb conn then (false, (conn, s))
  else
    match copy server (msg_id email_data) folder s with
    | (Returned typ, s1) =>
        if String.eqb typ "OK" then
          match store server (msg_id email_data) "\Deleted" s1 with
          | (Returned _, s2) =>
              match expunge server s2 with
              | (Returned _, s3) => (true, (conn, s3))
              | (Raised _, s3) => (false, (conn, s3))
              end
          | (Raised _, s2) => (false, (conn, s2))
          end
        else (false, (conn, s1))
    | (Raised _, s1) => (false, (conn, s1))
    end.

(** The provider as [EmailCleaner.clean] sees it.  Neither provider
    class defines [get_all_emails]: looking the method up raises
    [AttributeError]. *)
Definition as_email_provider : Cleaner.EmailProvider imap_state :=
  {| Cleaner.get_all_emails := fun st => (Raised "AttributeError", st);
     Cleaner.delete_email := fun email st =>
       let '(ok, st') := delete_email email st in (Returned ok, st') |}.

End WithServer.

(** A server that also records the calls made on it, each with the
    response type the server gave ([None] when the call raised). *)
Abbreviation imap_log := (list (imap_call * option string)).

Definition answer (r : outcome string) : option string :=
  match r with
  | Returned typ => Some typ
  | Raised _ => None
  end.

Definition recording_server {S : Type} (srv : ImapServer S)
  : ImapServer (S * imap_log) :=
  {| connect := fun '(s, log) =>
       let '(ok, s') := connect srv s in
       (ok, (s', log ++ [(Connect, if ok then Some "OK" else None)]));
     store := fun ident flag '(s, log) =>
       let '(r, s') := store srv ident flag s in
       (r, (s', log ++ [(Store ident flag, answer r)]));
     expunge := fun '(s, log) =>
       let '(r, s') := expunge srv s in
       (r, (s', log ++ [(Expunge, answer r)]));
     copy := fun ident folder '(s, log) =>
       let '(r, s') := copy srv ident folder s in
       (r, (s', log ++ [(Copy ident folder, answer r)])) |}.

(** The calls recorded by running [op] on a connected provider with an
    empty record. *)
Definition calls_of {S A : Type}
    (op : imap_state (S := S * imap_log) -> A * imap_state (S := S * imap_log))
    (conn : bool) (s : S) : imap_log :=
  snd (snd (snd (op (conn, (s, []))))).

(** Three servers for the examples: one that cannot be reached, one on
    which every call goes through, and one that copies but refuses to
    set flags, answering [NO] to [store]. *)
Definition offline_server : ImapServer unit :=
  {| connect := fun s => (false, s);
     store := fun _ _ s => (Raised "abort", s);
     expunge := fun s => (Raised "abort", s);
     copy := fun _ _ s => (Raised "abort", s) |}.

Definition willing_server : ImapServer unit :=
  {| connect := fun s => (true, s);
     store := fun _ _ s => (Returned "OK", s);
     expunge := fun s => (Returned "OK", s);
     copy := fun _ _ s => (Returned "OK", s) |}.

Definition read_only_server : ImapServer unit :=
  {| connect := fun s => (true, s);
     store := fun _ _ s => (Returned "NO", s);
     expunge := fun s => (Returned "OK", s);
     copy := fun _ _ s => (Returned "OK", s) |}.

End Provider.

(* ===================================================================== *)
(** ** notifier.py: Notifier *)
(* ===================================================================== *)

Module Notifier.
Import PyStr.

(** [s[:n]] *)
Fixpoint take_chars (n : nat) (s : string) : string :=
  match n, s with
  | Datatypes.S n', String c s' => String c (take_chars n' s')
  | _, _ => EmptyString
  end.

(** The sections of the [notifications] configuration; every key is read
    with [get], so each may be missing. *)
Record PushoverSection := mkPushover {
  user_key : option string;
  api_token : option string
}.

Record TwilioSection := mkTwilio {
  account_sid : option string;
  auth_token : option string;
  from_number : option string;
  to_number : option string
}.

Record MessagingSection := mkMessaging {
  provider : option string;
  twilio : option TwilioSection
}.

Record SmtpSection := mkSmtp {
  from_address : option string;
  to_address : option string;
  smtp_server : option string;
  smtp_port : option Z;
  smtp_username : option string;
  smtp_password : option string
}.

Record NotifyConfig := mkNotifyConfig {
  method : option string;
  pushover : option PushoverSection;
  email : option SmtpSection;
  sms : option MessagingSection;
  whatsapp : option MessagingSection
}.

(** [config.get(section, {})]: a missing section reads as an empty one. *)
Definition no_pushover : PushoverSection :=
  {| user_key := None; api_token := None |}.
Definition no_twilio : TwilioSection :=
  {| account_sid := None; auth_token := None;
     from_number := None; to_number := None |}.
Definition no_messaging : MessagingSection :=
  {| provider := None; twilio := None |}.
Definition no_smtp : SmtpSection :=
  {| from_address := None; to_address := None; smtp_server := None;
     smtp_port := None; smtp_username := None; smtp_password := None |}.

Definition section_or {A : Type} (empty : A) (o : option A) : A :=
  match o with
  | Some a => a
  | None => empty
  end.

(** The services behind the four methods.  [pushover_notify] answers the
    status of the result; [smtp_send] stands for connecting, logging in
    and sending; [twilio_create] answers the message id.  Each may
    raise. *)
Record Transports (S : Type) := mkTransports {
  pushover_notify :
    string -> string -> option string -> option string ->
    S -> outcome string * S;
  smtp_send : SmtpSection -> string -> string -> S -> outcome unit * S;
  twilio_create :
    option string -> option string -> string ->
    option string -> option string -> S -> outcome string * S
}.
Arguments pushover_notify {S} _ _ _ _ _ _.
Arguments smtp_send {S} _ _ _ _ _.
Arguments twilio_create {S} _ _ _ _ _ _ _.

Definition nl : string := String "010"%char EmptyString.
Definition indent12 : string := "            ".
Definition indent16 : string := "                ".

Definition pushover_title (email_data : Email) : string :=
  "Important Email: " +:+ subject email_data.

Definition pushover_message (email_data : Email) : string :=
  "From: " +:+ from_ email_data +:+ nl +:+ nl
  +:+ take_chars 200 (body email_data) +:+ "...".

Definition email_body (email_data : Email) : string :=
  nl +:+ indent12 +:+ "Important email received:" +:+ nl
  +:+ indent12 +:+ nl
  +:+ indent12 +:+ "From: " +:+ from_ email_data +:+ nl
  +:+ indent12 +:+ "Subject: " +:+ subject email_data +:+ nl
  +:+ indent12 +:+ "Date: " +:+ date email_data +:+ nl
  +:+ indent12 +:+ nl
  +:+ indent12 +:+ "Preview:" +:+ nl
  +:+ indent12 +:+ take_chars 500 (body email_data) +:+ "..." +:+ nl
  +:+ indent12.

Definition sms_message (email_data : Email) : string :=
  "Important Email: " +:+ subject email_data
  +:+ " - From: " +:+ from_ email_data.

Section WithTransports.

Context {S : Type}.
Variable transports : Transports S.
(** The pictograph that opens the WhatsApp message; its characters lie
    outside the 8-bit range. *)
Variable whatsapp_pictograph : string.
Variable config : NotifyConfig.

Definition whatsapp_message (email_data : Email) : string :=
  nl +:+ indent16 +:+ whatsapp_pictograph +:+ " *Important Email*" +:+ nl
  +:+ indent16 +:+ nl
  +:+ indent16 +:+ "*Subject:* " +:+ subject email_data +:+ nl
  +:+ indent16 +:+ "*From:* " +:+ from_ email_data +:+ nl
  +:+ indent16 +:+ "*Date:* " +:+ date email_data +:+ nl
  +:+ indent16 +:+ nl
  +:+ indent16 +:+ "*Preview:*" +:+ nl
  +:+ indent16 +:+ take_chars 250 (body email_data) +:+ "..." +:+ nl
  +:+ indent16.

Definition send_pushover_notification (email_data : Email) (st : S)
  : bool * S :=
  let pushover_config := section_or no_pushover (pushover config) in
  let title := pushover_title email_data in
  let message := pushover_message email_data in
  match pushover_notify transports message title
          (user_key pushover_config) (api_token pushover_config) st with
  | (Returned status, st') =>
      if String.eqb status "Success" then (true, st') else (false, st')
  | (Raised _, st') => (false, st')
  end.

Definition send_email_notification (email_data : Email) (st : S)
  : bool * S :=
  let email_config := section_or no_smtp (email config) in
  match smtp_send transports email_config
          ("Important Email: " +:+ subject email_data)
          (email_body email_data) st with
  | (Returned _, st') => (true, st')
  | (Raised _, st') => (false, st')
  end.

Definition send_sms_notification (email_data : Email) (st : S) : bool * S :=
  let sms_config := section_or no_messaging (sms config) in
  let provider_name :=
    lower (match provider sms_config with
           | Some p => p
           | None => "twilio"
           end) in
  if String.eqb provider_name "twilio" then
    let twilio_config := section_or no_twilio (twilio sms_config) in
    let message := sms_message email_data in
    match twilio_create transports
            (account_sid twilio_config) (auth_token twilio_config) message
            (from_number twilio_config) (to_number twilio_config) st with
    | (Returned _, st') => (true, st')
    | (Raised _, st') => (false, st')
    end
  else (false, st).

Definition send_whatsapp_notification (email_data : Email) (st : S)
  : bool * S :=
  let whatsapp_config := section_or no_messaging (whatsapp config) in
  let provider_name :=
    lower (match provider whatsapp_config with
           | Some p => p
           | None => "twilio"
           end) in
  if String.eqb provider_name "twilio" then
    let twilio_config := section_or no_twilio (twilio whatsapp_config) in
    let message := whatsapp_message email_data in
    match twilio_create transports
            (account_sid twilio_config) (auth_token twilio_config) message
            (from_number twilio_config) (to_number twilio_config) st with
    | (Returned _, st') => (true, st')
    | (Raised _, st') => (false, st')
    end
  else (false, st).

(** [config.get('method', 'sms')] *)
Definition notification_method : string :=
  match method config with
  | Some m => m
  | None => "sms"
  end.

Definition send_notification (email_data : Email) (st : S) : bool * S :=
  if String.eqb notification_method "pushover"
  then send_pushover_notification email_data st
  else if String.eqb notification_method "email"
  then send_email_notification email_data st
  else if String.eqb notification_method "sms"
  then send_sms_notification email_data st
  else if String.eqb notification_method "whatsapp"
  then send_whatsapp_notification email_data st
  else (false, st).

End WithTransports.

(** Services that all raise, for the examples. *)
Definition failing_transports : Transports unit :=
  {| pushover_notify := fun _ _ _ _ st => (Raised "ConnectionError", st);
     smtp_send := fun _ _ _ st => (Raised "ConnectionError", st);
     twilio_create := fun _ _ _ _ _ st => (Raised "ConnectionError", st) |}.

(** Services that all answer, Pushover with the status given. *)
Definition answering_transports (status : string) : Transports unit :=
  {| pushover_notify := fun _ _ _ _ st => (Returned status, st);
     smtp_send := fun _ _ _ st => (Returned tt, st);
     twilio_create := fun _ _ _ _ _ st => (Returned "SM1", st) |}.

Definition method_config (m : option string) (messaging : option MessagingSection)
  : NotifyConfig :=
  {| method := m; pushover := None; email := None;
     sms := messaging; whatsapp := messaging |}.

End Notifier.

(* ===================================================================== *)
(** ** main.py: process_emails *)
(* ===================================================================== *)

Module Main.

(** An entry of [config["labels"]]: the dictionary the classifier reads,
    and its [notify] key, read with [get("notify", False)]. *)
Record LabelEntry := mkLabelEntry {
  label_config : LabelConfig;
  notify : bool
}.

(** What [process_emails] calls.  [setup] stands for the first lines of
    the function: building the provider, the debugger breakpoint and the
    three components.  The other calls are the methods of the provider
    and of the notifier; each may raise, and nothing in [process_emails]
    catches. *)
Record Services (S : Type) := mkServices {
  setup : S -> outcome unit * S;
  get_unprocessed_emails : S -> outcome (list Email) * S;
  apply_labels : Email -> list string -> S -> outcome bool * S;
  send_notification : Email -> S -> outcome bool * S;
  mark_as_processed : Email -> S -> outcome bool * S;
  cleaning : Cleaner.EmailProvider S
}.
Arguments setup {S} _ _.
Arguments get_unprocessed_emails {S} _ _.
Arguments apply_labels {S} _ _ _ _.
Arguments send_notification {S} _ _ _.
Arguments mark_as_processed {S} _ _ _.
Arguments cleaning {S} _.

(** The calls [process_emails] makes. *)
Inductive event : Type :=
| Setup
| GetUnprocessedEmails
| ApplyLabels (email : Email) (labels : list string)
| SendNotification (email : Email)
| MarkAsProcessed (email : Email)
| GetAllEmails
| DeleteEmail (email : Email).

Abbreviation event_log := (list event).

Section WithLibrary.

Variable parseaddr : string -> string * string.
Variable parsedate_to_datetime : string -> option datetime.
Variable now : Z.

Context {S : Type}.
Variable services : Services S.
(** [config["labels"]] and [config["cleaning"]] *)
Variable label_entries : list LabelEntry.
Variable cleaning_config : CleanConfig.

(** [next((l for l in config["labels"] if l["name"] == label), None)] *)
Definition first_named (label : string) : option LabelEntry :=
  List.find (fun l => String.eqb (name (label_config l)) label) label_entries.

(** The loop over the labels of one email. *)
Fixpoint notify_loop (email : Email) (labels : list string) (st : S)
  : outcome unit * S :=
  match labels with
  | [] => (Returned tt, st)
  | label :: rest =>
      match first_named label with
      | Some entry =>
          if notify entry then
            match send_notification services email st with
            | (Returned _, st') => notify_loop email rest st'
            | (Raised exc, st') => (Raised exc, st')
            end
          else notify_loop email rest st
      | None => notify_loop email rest st
      end
  end.

(** The loop over the unprocessed emails. *)
Fixpoint email_loop (emails : list Email) (st : S) : outcome unit * S :=
  match emails with
  | [] => (Returned tt, st)
  | email :: rest =>
      let labels :=
        Classifier.classify parseaddr (map label_config label_entries) email in
      match (match labels with
             | [] => (Returned true, st)
             | _ :: _ => apply_labels services email labels st
             end) with
      | (Raised exc, st1) => (Raised exc, st1)
      | (Returned _, st1) =>
          match notify_loop email labels st1 with
          | (Raised exc, st2) => (Raised exc, st2)
          | (Returned _, st2) =>
              match mark_as_processed services email st2 with
              | (Raised exc, st3) => (Raised exc, st3)
              | (Returned _, st3) => email_loop rest st3
              end
          end
      end
  end.

(** Some label of the email is borne first by an entry with [notify]
    on. *)
Definition notifying (email : Email) : Prop :=
  exists label entry,
    In label (Classifier.classify parseaddr
                (map label_config label_entries) email) /\
    first_named label = Some entry /\ notify entry = true.

(** What a call made while the emails are processed looks like: the
    labels applied are those of [classify] and not empty, a notification
    is owed to a notifying label, and the email is one of the mailbox. *)
Definition email_phase (emails : list Email) (ev : event) : Prop :=
  match ev with
  | ApplyLabels email labels =>
      In email emails /\
      labels = Classifier.classify parseaddr
                 (map label_config label_entries) email /\
      labels <> []
  | SendNotification email => In email emails /\ notifying email
  | MarkAsProcessed email => In email emails
  | _ => False
  end.

(** [process_emails]: the value returned is the count it logs at the
    end. *)
Definition process_emails (st : S) : outcome nat * S :=
  match setup services st with
  | (Raised exc, st0) => (Raised exc, st0)
  | (Returned _, st0) =>
      match get_unprocessed_emails services st0 with
      | (Raised exc, st1) => (Raised exc, st1)
      | (Returned emails, st1) =>
          match email_loop emails st1 with
          | (Raised exc, st2) => (Raised exc, st2)
          | (Returned _, st2) =>
              let '(cleaned_count, st3) :=
                Cleaner.clean parsedate_to_datetime now
                  (cleaning services) cleaning_config st2 in
              (Returned cleaned_count, st3)
          end
      end
  end.

End WithLibrary.

Definition logged {S A : Type} (ev : event)
    (call : S -> outcome A * S) (st : S * event_log)
  : outcome A * (S * event_log) :=
  let '(s, log) := st in
  let '(r, s') := call s in (r, (s', log ++ [ev])).

(** Services that also record every call made on them, in order. *)
Definition recording_services {S : Type} (sv : Services S)
  : Services (S * event_log) :=
  {| setup := logged Setup (setup sv);
     get_unprocessed_emails :=
       logged GetUnprocessedEmails (get_unprocessed_emails sv);
     apply_labels := fun email labels =>
       logged (ApplyLabels email labels) (apply_labels sv email labels);
     send_notification := fun email =>
       logged (SendNotification email) (send_notification sv email);
     mark_as_processed := fun email =>
       logged (MarkAsProcessed email) (mark_as_processed sv email);
     cleaning :=
       {| Cleaner.get_all_emails :=
            logged GetAllEmails (Cleaner.get_all_emails (cleaning sv));
          Cleaner.delete_email := fun email =>
            logged (DeleteEmail email)
                   (Cleaner.delete_email (cleaning sv) email) |} |}.

(** The emails marked as processed, in the order of the calls. *)
Fixpoint marked (log : event_log) : list Email :=
  match log with
  | [] => []
  | MarkAsProcessed email :: rest => email :: marked rest
  | _ :: rest => marked rest
  end.

(** The calls of the cleaning pass. *)
Definition is_cleaning (ev : event) : bool :=
  match ev with
  | GetAllEmails | DeleteEmail _ => true
  | _ => false
  end.

(** Services on which every call goes through, with a mailbox of
    unprocessed emails, for the examples. *)
Definition willing_services (emails : list Email) : Services unit :=
  {| setup := fun st => (Returned tt, st);
     get_unprocessed_emails := fun st => (Returned emails, st);
     apply_labels := fun _ _ st => (Returned true, st);
     send_notification := fun _ st => (Returned true, st);
     mark_as_processed := fun _ st => (Returned true, st);
     cleaning := Cleaner.callback_provider (Returned emails)
                   (fun _ => Returned true) |}.

(** Services whose notifier raises. *)
Definition failing_notifier_services (emails : list Email) : Services unit :=
  {| setup := fun st => (Returned tt, st);
     get_unprocessed_emails := fun st => (Returned emails, st);
     apply_labels := fun _ _ st => (Returned true, st);
     send_notification := fun _ st => (Raised "TwilioException", st);
     mark_as_processed := fun _ st => (Returned true, st);
     cleaning := Cleaner.callback_provider (Returned emails)
                   (fun _ => Returned true) |}.

(** The label entries of the tests, the first with [notify] on. *)
Definition test_label_entries : list LabelEntry :=
  [ {| label_config :=
         {| name := "Important";
            criteria := {| c_from := Some ["boss@company.com"];
                           c_from_domain := None; c_from_name := None;
                           c_subject_contains := Some ["urgent"];
                           c_body_contains := None |} |};
       notify := true |};
    {| label_config := {| name := "Work"; criteria := Examples.work_criteria |};
       notify := false |} ].

End Main.

(* ===================================================================== *)
(** ** Notions used to state the behaviour of the two engines *)
(* ===================================================================== *)

Module Notions.
Import PyStr.

(** Some entry of [keywords] occurs in [text], without regard to case. *)
Definition keyword_listed (text : string) (keywords : list string) : Prop :=
  exists k, In k keywords /\ occurs_in (lower k) (lower text).

(** The email with its subject and body lowercased. *)
Definition lower_email (e : Email) : Email :=
  {| msg_id := msg_id e; subject := lower (subject e); from_ := from_ e;
     body := lower (body e); date := date e;
     labels := labels e; flags := flags e |}.

Definition lower_entries (field : option (list string))
  : option (list string) :=
  match field with
  | Some l => Some (map lower l)
  | None => None
  end.

(** The criteria with every entry of every list lowercased. *)
Definition lower_criteria (c : Criteria) : Criteria :=
  {| c_from := lower_entries (c_from c);
     c_from_domain := lower_entries (c_from_domain c);
     c_from_name := lower_entries (c_from_name c);
     c_subject_contains := lower_entries (c_subject_contains c);
     c_body_contains := lower_entries (c_body_contains c) |}.

(** The emails a policy selects, in the order of the mailbox. *)
Definition selected (parsedate_to_datetime : string -> option datetime)
    (now : Z) (config : CleanConfig) (emails : list Email) : list Email :=
  List.filter (Cleaner.should_delete parsedate_to_datetime now config) emails.

End Notions.

(* ===================================================================== *)
(** ** Facts about the string operations *)
(* ===================================================================== *)

Module PyStrFacts.
Import PyStr.

Lemma append_cons (c : ascii) (s t : string) :
  String c s +:+ t = String c (s +:+ t).
Proof. reflexivity. Qed.

Lemma append_empty (t : string) : EmptyString +:+ t = t.
Proof. reflexivity. Qed.

Lemma startswith_spec (s p : string) :
  startswith s p = true <-> exists rest, s = p +:+ rest.
Proof.
  revert s; induction p as [|b p IH]; intros s.
  - destruct s; simpl; split; eauto.
  - destruct s as [|a s]; simpl.
    + split; [discriminate | intros [r H]; discriminate].
    + rewrite andb_true_iff, Ascii.eqb_eq, IH. split.
      * intros [-> [r ->]]. exists r. reflexivity.
      * intros [r H]. injection H as -> ->. split; eauto.
Qed.

Lemma contains_spec (needle hay : string) :
  contains needle hay = true <-> occurs_in needle hay.
Proof.
  unfold occurs_in. induction hay as [|a hay IH]; cbn [contains].
  - rewrite orb_false_r, startswith_spec. split.
    + intros [r H]. exists EmptyString, r. exact H.
    + intros (b & r & H). destruct b; simpl in H; [eauto | discriminate].
  - rewrite orb_true_iff, startswith_spec, IH. split.
    + intros [[r H] | (b & r & H)].
      * exists EmptyString, r. exact H.
      * exists (String a b), r. rewrite append_cons. f_equal. exact H.
    + intros (b & r & H). destruct b as [|a' b]; simpl in H.
      * left. eauto.
      * right. injection H as _ H. eauto.
Qed.

Lemma endswith_spec (s suffix : string) :
  endswith s suffix = true <-> has_suffix s suffix.
Proof.
  unfold has_suffix. induction s as [|a s IH]; cbn [endswith].
  - rewrite orb_false_r, String.eqb_eq. split.
    + intros <-. exists EmptyString. reflexivity.
    + intros [b H]. destruct b; simpl in H; [auto | discriminate].
  - rewrite orb_true_iff, String.eqb_eq, IH. split.
    + intros [<- | [b ->]].
      * exists EmptyString. reflexivity.
      * exists (String a b). reflexivity.
    + intros [b H]. destruct b as [|a' b]; simpl in H.
      * left. exact H.
      * right. injection H as _ ->. eauto.
Qed.

Lemma lower_app (a b : string) : lower (a +:+ b) = lower a +:+ lower b.
Proof.
  induction a as [|c a IH]; [reflexivity|].
  rewrite append_cons. cbn [lower]. now rewrite IH, append_cons.
Qed.

Lemma split_nonempty (sep : ascii) (s : string) : split sep s <> [].
Proof.
  induction s as [|c s IH]; simpl; [discriminate|].
  destruct (Ascii.eqb c sep); [discriminate|].
  destruct (split sep s); discriminate.
Qed.

Lemma split_lacks (sep : ascii) (s : string) :
  lacks sep s = true -> split sep s = [s].
Proof.
  induction s as [|c s IH]; simpl; [reflexivity|].
  rewrite andb_true_iff, negb_true_iff. intros [-> H].
  now rewrite (IH H).
Qed.

Lemma split_at_sep (sep : ascii) (a b : string) :
  lacks sep a = true ->
  split sep (a +:+ String sep b) = a :: split sep b.
Proof.
  induction a as [|c a IH].
  - intros _. rewrite append_empty. cbn [split]. now rewrite Ascii.eqb_refl.
  - cbn [lacks]. rewrite andb_true_iff, negb_true_iff. intros [Hc H].
    rewrite append_cons. cbn [split]. now rewrite Hc, (IH H).
Qed.

(** Some entry of [l] satisfies [f]: Python's [any] over a list. *)
Lemma any_spec {A : Type} (f : A -> bool) (l : list A) :
  existsb f l = true <-> exists x, In x l /\ f x = true.
Proof. apply existsb_exists. Qed.

End PyStrFacts.

(* ===================================================================== *)
(** ** The label matcher *)
(* ===================================================================== *)

Module ClassifierSpec.
Import PyStr PyStrFacts Classifier Examples.

Section WithParseaddr.

Variable parseaddr : string -> string * string.

Lemma rule_based_names (R : list LabelConfig) (E : Email) :
  incl (rule_based_classify parseaddr R E) (map name R).
Proof.
  induction R as [|r R IH]; simpl.
  - apply incl_nil_l.
  - destruct (matches_criteria parseaddr E (criteria r)).
    + apply incl_cons; [now left | now apply incl_tl].
    + now apply incl_tl.
Qed.

Lemma list_of_set_nodup (l : list string) : NoDup (list_of_set l).
Proof. unfold list_of_set. apply NoDup_elements. Qed.

Lemma list_of_set_in (l : list string) (x : string) :
  In x (list_of_set l) <-> In x l.
Proof.
  unfold list_of_set.
  rewrite <- !list_elem_of_In, elem_of_elements, elem_of_list_to_set.
  reflexivity.
Qed.

Lemma classify_eq (R : list LabelConfig) (E : Email) :
  classify parseaddr R E = list_of_set (rule_based_classify parseaddr R E).
Proof.
  unfold classify, llm_classify, dummy_llm_call.
  now rewrite orb_true_r, app_nil_r.
Qed.

(** C5: for every email [E] and rule list [R], [classify E R] has no
    duplicate name and each of its names is the name of a rule of [R]. *)
Theorem classify_nodup_subset (R : list LabelConfig) (E : Email) :
  NoDup (classify parseaddr R E) /\
  incl (classify parseaddr R E) (map name R).
Proof.
  rewrite classify_eq. split.
  - apply list_of_set_nodup.
  - intros x Hx. apply (rule_based_names R E x).
    exact (proj1 (list_of_set_in _ x) Hx).
Qed.

Lemma matches_criteria_conj (e : Email) (c : Criteria) :
  matches_criteria parseaddr e c =
  from_ok parseaddr e c && from_domain_ok parseaddr e c
  && subject_ok e c && body_ok e c.
Proof.
  unfold matches_criteria.
  destruct (from_ok parseaddr e c), (from_domain_ok parseaddr e c),
    (subject_ok e c), (body_ok e c); reflexivity.
Qed.

Lemma check_alternate_spec (e : Email) (c : Criteria) :
  check_alternate_from_criteria parseaddr e c = true <->
  name_rescues parseaddr e c.
Proof.
  unfold check_alternate_from_criteria, name_rescues.
  destruct (c_from_name c) as [[|n ns]|]; cbn [truthy entries].
  - split; [discriminate|]. intros (names & [= <-] & x & [] & _).
  - set (hit := fun name : string => _).
    destruct (existsb hit (n :: ns)) eqn:Hany.
    + split; [intros _ | reflexivity].
      apply any_spec in Hany as (x & Hx & Hhit).
      exists (n :: ns). split; [reflexivity|]. exists x. split; [exact Hx|].
      now apply contains_spec.
    + split; [discriminate|]. intros (names & [= <-] & x & Hx & Hocc).
      rewrite <- Hany. apply any_spec. exists x. split; [exact Hx|].
      now apply contains_spec.
  - split; [discriminate|]. intros (names & [=] & _).
Qed.

Lemma listed_spec (e : Email) (addrs : list string) :
  existsb (fun from_addr =>
             String.eqb (lower (extract_email parseaddr (from_ e)))
                        (lower from_addr)) addrs = true <->
  address_listed parseaddr e addrs.
Proof.
  unfold address_listed. rewrite any_spec.
  split; intros (a & Ha & H); exists a; (split; [exact Ha|]);
    now apply String.eqb_eq.
Qed.

(** The [from] block passes iff the address is listed or the display
    name rescues it, once [from] holds at least one address. *)
Lemma from_ok_spec (e : Email) (c : Criteria) (a : string) (addrs : list string) :
  c_from c = Some (a :: addrs) ->
  from_ok parseaddr e c = true <->
  address_listed parseaddr e (a :: addrs) \/ name_rescues parseaddr e c.
Proof.
  intros Hfrom. unfold from_ok. rewrite Hfrom. cbn [truthy entries].
  rewrite <- listed_spec, <- check_alternate_spec.
  destruct (existsb _ (a :: addrs));
    destruct (check_alternate_from_criteria parseaddr e c);
    cbn [negb]; intuition congruence.
Qed.


(** C2 (as amended): when [from] holds at least one address and the sender
    address equals none of them without regard to case, the [from] block
    is passed iff [from_name] is there and one of its entries occurs,
    without regard to case, in the display name; a failed block fails the
    rule.  When [from] is missing, [from_name] has no effect on the
    match, and a rule with [from_name] alone matches every email. *)
Theorem from_name_fallback (e : Email) (c : Criteria) :
  (forall a addrs,
     c_from c = Some (a :: addrs) ->
     ~ address_listed parseaddr e (a :: addrs) ->
     (from_ok parseaddr e c = true <-> name_rescues parseaddr e c) /\
     (from_ok parseaddr e c = false -> matches_criteria parseaddr e c = false)) /\
  (c_from c = None ->
   forall v, matches_criteria parseaddr e (set_from_name c v)
             = matches_criteria parseaddr e c) /\
  (forall v, matches_criteria parseaddr e (set_from_name no_criteria v) = true).
Proof.
  split; [|split].
  - intros a addrs Hfrom Hnot. split.
    + rewrite (from_ok_spec e c a addrs Hfrom). tauto.
    + intros H. now rewrite matches_criteria_conj, H.
  - intros Hnone v. rewrite !matches_criteria_conj.
    unfold from_ok, from_domain_ok, subject_ok, body_ok.
    cbn [set_from_name c_from c_from_domain c_subject_contains c_body_contains].
    now rewrite Hnone.
  - intros v. reflexivity.
Qed.


End WithParseaddr.

(** The three rule tests of [tests/test_classifier.py]. *)
Example test_rule_based_classify :
  In "Important"
     (rule_based_classify parseaddr_model test_label_configs
        (plain_email "boss@company.com" "Urgent meeting"
                     "We need to meet ASAP")) /\
  In "Work"
     (rule_based_classify parseaddr_model test_label_configs
        (plain_email "colleague@company.com" "Team update"
                     "Here is the latest team update")) /\
  rule_based_classify parseaddr_model test_label_configs
    (plain_email "friend@example.com" "Hello" "Just saying hello") = [].
Proof. vm_compute. intuition. Qed.

(** C2 (as stated) fails on [{'from': []}]: the key is there, no entry
    equals the sender address, [from_name] is missing, and yet the block
    is passed. *)
Lemma from_fallback_empty_list_cex :
  ~ (forall (e : Email) (c : Criteria) (addrs : list string),
       c_from c = Some addrs ->
       ~ address_listed parseaddr_model e addrs ->
       (from_ok parseaddr_model e c = true <->
        name_rescues parseaddr_model e c)).
Proof.
  intros H.
  specialize (H (plain_email "boss@company.com" "Hello" "Hi")
                empty_from_criteria [] eq_refl).
  assert (Hnone : ~ address_listed parseaddr_model
                      (plain_email "boss@company.com" "Hello" "Hi") []).
  { intros (a & [] & _). }
  destruct (H Hnone) as [Hpass _].
  destruct (Hpass eq_refl) as (names & Hnames & _).
  discriminate Hnames.
Qed.

Lemma from_name_fallback_witness :
  (from_ok parseaddr_model
     (plain_email "Big Boss <other@evil.org>" "Hello" "Hi") boss_criteria = true
   <-> name_rescues parseaddr_model
     (plain_email "Big Boss <other@evil.org>" "Hello" "Hi") boss_criteria) /\
  matches_criteria parseaddr_model
     (plain_email "a@b.org" "Hello" "Hi") (set_from_name no_criteria (Some ["boss"]))
  = matches_criteria parseaddr_model
     (plain_email "a@b.org" "Hello" "Hi") no_criteria.
Proof.
  split.
  - refine (proj1 (proj1 (from_name_fallback parseaddr_model
              (plain_email "Big Boss <other@evil.org>" "Hello" "Hi")
              boss_criteria) "boss@company.com" [] eq_refl _)).
    intros (a & [<- | []] & Heq). vm_compute in Heq. discriminate Heq.
  - exact (proj1 (proj2 (from_name_fallback parseaddr_model
              (plain_email "a@b.org" "Hello" "Hi") no_criteria))
             eq_refl (Some ["boss"])).
Defined.




(** [{'from_domain': []}]: the key is there with no suffix under it, and
    the block is skipped rather than failed. *)
Lemma empty_from_domain_skipped (e : Email) :
  from_domain_ok parseaddr_model e empty_domain_criteria = true /\
  ~ domain_listed parseaddr_model e [].
Proof.
  split; [reflexivity|]. intros (d & [] & _).
Qed.

End ClassifierSpec.

(* ===================================================================== *)
(** ** The retention evaluator *)
(* ===================================================================== *)

Module CleanerSpec.
Import PyStr PyStrFacts Cleaner Examples.

Lemma any_contains_spec (f : string -> string) (hay : string) (l : list string) :
  existsb (fun x => contains (f x) hay) l = true <->
  exists x, In x l /\ occurs_in (f x) hay.
Proof.
  rewrite any_spec.
  split; intros (x & Hx & H); exists x; (split; [exact Hx|]);
    now apply contains_spec.
Qed.

Lemma mem_spec (x : string) (l : list string) :
  existsb (String.eqb x) l = true <-> In x l.
Proof.
  rewrite any_spec. split.
  - intros (y & Hy & H). apply String.eqb_eq in H. now subst.
  - intros H. exists x. split; [exact H | apply String.eqb_refl].
Qed.

(** A word equal to [unsubscribe] up to case, anywhere in the body, is
    found by the lowercase search. *)
Lemma unsubscribe_any_case (text before w after : string) :
  lower w = "unsubscribe" ->
  text = before +:+ w +:+ after ->
  contains "unsubscribe" (lower text) = true.
Proof.
  intros Hw ->. apply contains_spec.
  exists (lower before), (lower after).
  now rewrite !lower_app, Hw.
Qed.

(** The three tests of [is_newsletter], read off its body: it answers
    true iff what [extract_domain] returns for the sender contains,
    without regard to case, an entry of [newsletter_domains], or the
    lowercased subject contains one of newsletter, subscribe, update,
    digest, weekly, monthly, or the lowercased body contains
    [unsubscribe]; so it answers true for a body with [Unsubscribe]
    written in any case.  The first test is on the text [extract_domain]
    returns, whether or not that text is the domain of the sender. *)
Lemma is_newsletter_spec (config : CleanConfig) (email : Email) :
  (is_newsletter config email = true <->
     (exists d, In d (newsletter_domains config) /\
        occurs_in (lower d) (lower (extract_domain (from_ email)))) \/
     (exists k,
        In k ["newsletter"; "subscribe"; "update"; "digest"; "weekly";
              "monthly"] /\
        occurs_in k (lower (subject email))) \/
     occurs_in "unsubscribe" (lower (body email))) /\
  (forall before w after,
     lower w = "unsubscribe" ->
     body email = before +:+ w +:+ after ->
     is_newsletter config email = true).
Proof.
  assert (Hiff : is_newsletter config email = true <->
     (exists d, In d (newsletter_domains config) /\
        occurs_in (lower d) (lower (extract_domain (from_ email)))) \/
     (exists k, In k newsletter_keywords /\
        occurs_in k (lower (subject email))) \/
     occurs_in "unsubscribe" (lower (body email))).
  { rewrite <- (any_contains_spec lower), <- (any_contains_spec (fun k => k)),
      <- contains_spec.
    unfold is_newsletter.
    destruct (existsb _ (newsletter_domains config));
    destruct (existsb _ newsletter_keywords);
    destruct (contains "unsubscribe" (lower (body email)));
    intuition congruence. }
  split; [exact Hiff|].
  intros before w after Hw Hbody. apply Hiff. right. right.
  apply contains_spec. now apply (unsubscribe_any_case _ before w after).
Qed.

Lemma is_newsletter_spec_witness :
  is_newsletter no_policy
    (plain_email "friend@example.com" "Hello" "Click here to UnSubscribe.")
  = true.
Proof.
  apply (proj2 (is_newsletter_spec no_policy
           (plain_email "friend@example.com" "Hello"
                        "Click here to UnSubscribe."))
           "Click here to " "UnSubscribe" ".");
    reflexivity.
Defined.

(** C7, at two emails without newsletter keyword in the subject and
    without [unsubscribe] in the body.  The first comes from [nodomain],
    an address without [@], so that the sender has no domain; with the
    entry [domain] configured, [is_newsletter] answers true, and with
    [delete_newsletters] on the email is selected for deletion.  The
    second comes from [x@y.org (Big Boss)], whose domain [y.org] does not
    contain the entry [boss]; [is_newsletter] answers true again.  In
    both the entry is found in the text [extract_domain] returns, which
    is not the sender's domain. *)
Theorem is_newsletter_without_domain :
  let email := plain_email "nodomain" "Hello" "Hi" in
  let email' := plain_email "x@y.org (Big Boss)" "Hello" "Hi" in
  (parseaddr_example (from_ email) = (EmptyString, "nodomain") /\
   Classifier.extract_domain parseaddr_example (from_ email) = EmptyString /\
   contains (lower "domain") (lower EmptyString) = false /\
   extract_domain (from_ email) = "nodomain" /\
   is_newsletter (newsletter_policy ["domain"]) email = true /\
   should_delete parsedate_example t_2026_11_03
     (newsletter_policy ["domain"]) email = true) /\
  (parseaddr_example (from_ email') = ("Big Boss", "x@y.org") /\
   Classifier.extract_domain parseaddr_example (from_ email') = "y.org" /\
   contains (lower "boss") (lower "y.org") = false /\
   extract_domain (from_ email') = "y.org (Big Boss)" /\
   is_newsletter (newsletter_policy ["boss"]) email' = true) /\
  existsb (fun keyword => contains keyword (lower "Hello")) newsletter_keywords
  = false /\
  contains "unsubscribe" (lower "Hi") = false /\
  is_newsletter (newsletter_policy []) email = false /\
  is_newsletter (newsletter_policy []) email' = false.
Proof. repeat split; vm_compute; reflexivity. Qed.

(** C9: [is_read] answers true iff the email has a [labels] list without
    [UNREAD], or a [flags] list with [\Seen]; an email with neither list
    is unread. *)
Theorem is_read_spec (email : Email) :
  (is_read email = true <->
     (exists ls, labels email = Some ls /\ ~ In "UNREAD" ls) \/
     (exists fs, flags email = Some fs /\ In "\Seen" fs)) /\
  (labels email = None -> flags email = None -> is_read email = false).
Proof.
  unfold is_read. split.
  - assert (Hflags :
      (match flags email with
       | Some fs => existsb (String.eqb "\Seen") fs
       | None => false
       end) = true <->
      exists fs, flags email = Some fs /\ In "\Seen" fs).
    { destruct (flags email) as [fs|].
      - rewrite mem_spec. split; [eauto|].
        intros (f & [= <-] & Hi). exact Hi.
      - split; [discriminate|]. intros (f & [=] & _). }
    assert (Hlabels :
      (match labels email with
       | Some ls => negb (existsb (String.eqb "UNREAD") ls)
       | None => false
       end) = true <->
      exists ls, labels email = Some ls /\ ~ In "UNREAD" ls).
    { destruct (labels email) as [ls|].
      - rewrite negb_true_iff, <- not_true_iff_false, mem_spec.
        split; [eauto|]. intros (l & [= <-] & Hn). exact Hn.
      - split; [discriminate|]. intros (l & [=] & _). }
    rewrite <- Hflags, <- Hlabels.
    destruct (match labels email with Some _ => _ | None => _ end);
      destruct (match flags email with Some _ => _ | None => _ end);
      intuition congruence.
  - intros -> ->. reflexivity.
Qed.

Lemma is_read_spec_witness :
  is_read (plain_email "sender@example.com" "Hello" "Hi") = false.
Proof.
  apply (proj2 (is_read_spec (plain_email "sender@example.com" "Hello" "Hi")));
    reflexivity.
Defined.

(** Where the two extractions agree: started from the same address with
    exactly one [@], both yield the text after it.  Started from an
    address without [@] they part: the label matcher yields the empty
    string, the retention evaluator the address itself.  The hypotheses
    are on the address each extraction splits, not on the header. *)
Lemma extract_domain_agreement
    (parseaddr : string -> string * string) (from_field : string) :
  (forall user dom,
     lacks "@"%char user = true -> lacks "@"%char dom = true ->
     sender_address from_field = user +:+ "@" +:+ dom ->
     snd (parseaddr from_field) = user +:+ "@" +:+ dom ->
     extract_domain from_field = dom /\
     Classifier.extract_domain parseaddr from_field = dom) /\
  (lacks "@"%char (sender_address from_field) = true ->
   extract_domain from_field = sender_address from_field) /\
  (lacks "@"%char (snd (parseaddr from_field)) = true ->
   Classifier.extract_domain parseaddr from_field = EmptyString).
Proof.
  unfold extract_domain, Classifier.extract_domain.
  split; [|split].
  - intros user dom Hu Hd -> ->.
    change ("@" +:+ dom) with (String "@"%char dom).
    rewrite (split_at_sep _ _ _ Hu), (split_lacks _ _ Hd).
    split; reflexivity.
  - intros H. now rewrite (split_lacks _ _ H).
  - intros H. now rewrite (split_lacks _ _ H).
Qed.

Lemma extract_domain_agreement_witness :
  (extract_domain "a@sub.company.com" = "sub.company.com" /\
   Classifier.extract_domain Classifier.parseaddr_model "a@sub.company.com"
   = "sub.company.com") /\
  extract_domain "nodomain" = sender_address "nodomain" /\
  Classifier.extract_domain Classifier.parseaddr_model "nodomain" = EmptyString.
Proof.
  split; [|split].
  - apply (proj1 (extract_domain_agreement Classifier.parseaddr_model
             "a@sub.company.com") "a" "sub.company.com"); reflexivity.
  - apply (proj1 (proj2 (extract_domain_agreement Classifier.parseaddr_model
             "nodomain"))); reflexivity.
  - apply (proj2 (proj2 (extract_domain_agreement Classifier.parseaddr_model
             "nodomain"))); reflexivity.
Defined.

(** C3, at five headers.  On [John Doe <john.doe@example.com>] the
    retention evaluator and the label matcher both yield [example.com],
    the text after the [@] of the address.  On [nodomain], on the same
    with blanks around it and on [Bob <bob>], where the address has no
    [@], the label matcher yields the empty string and the retention
    evaluator the address itself: the bracketed group or else the
    stripped header, whose last piece between [@]s is the whole of it.
    On [x@y.org (Big Boss)] the address is [x@y.org]; the label matcher
    yields [y.org], the retention evaluator [y.org (Big Boss)], the
    comment included.  So the two do not agree on every header. *)
Theorem extract_domain_divergence :
  (parseaddr_example "John Doe <john.doe@example.com>"
   = ("John Doe", "john.doe@example.com") /\
   Classifier.extract_domain parseaddr_example
     "John Doe <john.doe@example.com>" = "example.com" /\
   extract_domain "John Doe <john.doe@example.com>" = "example.com") /\
  (parseaddr_example "nodomain" = (EmptyString, "nodomain") /\
   Classifier.extract_domain parseaddr_example "nodomain" = EmptyString /\
   extract_domain "nodomain" = "nodomain") /\
  (parseaddr_example " nodomain " = (EmptyString, "nodomain") /\
   Classifier.extract_domain parseaddr_example " nodomain " = EmptyString /\
   extract_domain " nodomain " = "nodomain") /\
  (parseaddr_example "Bob <bob>" = ("Bob", "bob") /\
   Classifier.extract_domain parseaddr_example "Bob <bob>" = EmptyString /\
   extract_domain "Bob <bob>" = "bob") /\
  (parseaddr_example "x@y.org (Big Boss)" = ("Big Boss", "x@y.org") /\
   Classifier.extract_domain parseaddr_example "x@y.org (Big Boss)" = "y.org" /\
   extract_domain "x@y.org (Big Boss)" = "y.org (Big Boss)") /\
  ~ (forall from_field : string,
       extract_domain from_field
       = Classifier.extract_domain parseaddr_example from_field).
Proof.
  repeat split; try (vm_compute; reflexivity).
  intros H. specialize (H "nodomain"). vm_compute in H. discriminate H.
Qed.

Section WithClock.

Variable parsedate_to_datetime : string -> option datetime.
Variable now : Z.

Local Abbreviation is_too_old := (is_too_old parsedate_to_datetime now).
Local Abbreviation should_delete := (should_delete parsedate_to_datetime now).

(** A date that does not parse is not too old. *)
Lemma is_too_old_unparsable (email : Email) (max_age_days : Z) :
  parsedate_to_datetime (date email) = None ->
  is_too_old email max_age_days = false.
Proof. intros H. unfold Cleaner.is_too_old. now rewrite H. Qed.

(** A naive date is compared with the cutoff, when the cutoff exists. *)
Lemma is_too_old_naive (email : Email) (max_age_days t : Z) :
  parsedate_to_datetime (date email) = Some (Naive t) ->
  (Z.abs max_age_days <= 999999999)%Z ->
  (0 <= now - max_age_days * us_per_day < datetime_span)%Z ->
  is_too_old email max_age_days = true <->
  (t < now - max_age_days * us_per_day)%Z.
Proof.
  intros Hparse Hdays Hrange.
  unfold Cleaner.is_too_old, timedelta_days, datetime_sub. rewrite Hparse.
  destruct (Z.leb_spec (Z.abs max_age_days) 999999999); [|lia].
  destruct (Z.leb_spec 0 (now - max_age_days * us_per_day)); [|lia].
  destruct (Z.ltb_spec (now - max_age_days * us_per_day) datetime_span);
    [|lia].
  cbn [andb datetime_lt]. apply Z.ltb_lt.
Qed.

(** An aware date is never too old: the comparison with the naive cutoff
    raises [TypeError], which the handler answers with [False]. *)
Lemma is_too_old_aware (email : Email) (max_age_days t : Z) :
  parsedate_to_datetime (date email) = Some (Aware t) ->
  is_too_old email max_age_days = false.
Proof.
  intros Hparse. unfold Cleaner.is_too_old. rewrite Hparse.
  destruct (timedelta_days max_age_days) as [delta|]; [|reflexivity].
  destruct (datetime_sub now delta); reflexivity.
Qed.

Lemma age_rule_spec (config : CleanConfig) (email : Email) :
  (match delete_older_than config with
   | Some days => negb (days =? 0)%Z && is_too_old email days
   | None => false
   end) = true <->
  exists days, delete_older_than config = Some days /\ days <> 0%Z /\
               is_too_old email days = true.
Proof.
  destruct (delete_older_than config) as [days|].
  - rewrite andb_true_iff, negb_true_iff, Z.eqb_neq. split.
    + intros [Hne Hold]. eauto.
    + intros (d & [= <-] & Hne & Hold). auto.
  - split; [discriminate|]. intros (d & [=] & _).
Qed.

(** C4 (as amended): [should_delete] answers true iff (1)
    [delete_newsletters] is true and [is_newsletter] holds, or (2)
    [delete_older_than] is set to a number of days other than 0 and
    [is_too_old] holds for that many days, or (3) [delete_read] is true
    and [is_read] holds; it answers false when none holds. *)
Theorem should_delete_spec (config : CleanConfig) (email : Email) :
  should_delete config email = true <->
  (delete_newsletters config = true /\ is_newsletter config email = true) \/
  (exists days, delete_older_than config = Some days /\ days <> 0%Z /\
                is_too_old email days = true) \/
  (delete_read config = true /\ is_read email = true).
Proof.
  rewrite <- age_rule_spec. unfold Cleaner.should_delete.
  destruct (delete_newsletters config), (is_newsletter config email),
    (match delete_older_than config with Some _ => _ | None => _ end),
    (delete_read config), (is_read email);
    cbn [andb]; intuition congruence.
Qed.

Local Abbreviation clean_loop := (clean_loop parsedate_to_datetime now).
Local Abbreviation clean := (clean parsedate_to_datetime now).

(** What one run of the loop adds to the record of a recording provider:
    the calls made, their successes added to the count, the selected
    emails called in order, and a raising call only as the last one. *)
Lemma clean_loop_recording {S : Type} (p : EmailProvider S)
    (config : CleanConfig) (emails : list Email) :
  forall (count : nat) (st : S) (log : call_log),
  exists calls skipped,
    clean_loop (recording p) config emails count (st, log)
    = (count + successes calls,
       (snd (clean_loop p config emails count st), log ++ calls)) /\
    fst (clean_loop p config emails count st) = count + successes calls /\
    List.filter (should_delete config) emails = map fst calls ++ skipped /\
    if any_raised calls
    then exists before call,
           calls = before ++ [call] /\ raised (snd call) = true /\
           any_raised before = false
    else skipped = [].
Proof.
  induction emails as [|email rest IH]; intros count st log.
  - exists [], []. cbn. rewrite app_nil_r, Nat.add_0_r. auto.
  - cbn [Cleaner.clean_loop List.filter].
    destruct (should_delete config email) eqn:Hsel.
    + cbn [recording delete_email].
      destruct (delete_email p email st) as [[[|]|exc] st1] eqn:Hcall.
      * destruct (IH (count + 1) st1 (log ++ [(email, Returned true)]))
          as (calls & skipped & Hrun & Hcount & Hsel' & Hlast).
        exists ((email, Returned true) :: calls), skipped.
        change (successes ((email, Returned true) :: calls))
          with (Datatypes.S (successes calls)).
        change (any_raised ((email, Returned true) :: calls))
          with (any_raised calls).
        split; [|split; [|split]].
        -- etransitivity; [exact Hrun|].
           rewrite <- app_assoc. f_equal. lia.
        -- rewrite Hcount. lia.
        -- cbn [map fst]. now rewrite Hsel'.
        -- destruct (any_raised calls); [|exact Hlast].
           destruct Hlast as (before & call & -> & Hr & Hb).
           exists ((email, Returned true) :: before), call. auto.
      * destruct (IH count st1 (log ++ [(email, Returned false)]))
          as (calls & skipped & Hrun & Hcount & Hsel' & Hlast).
        exists ((email, Returned false) :: calls), skipped.
        change (successes ((email, Returned false) :: calls))
          with (successes calls).
        change (any_raised ((email, Returned false) :: calls))
          with (any_raised calls).
        split; [|split; [|split]].
        -- etransitivity; [exact Hrun|].
           now rewrite <- app_assoc.
        -- exact Hcount.
        -- cbn [map fst]. now rewrite Hsel'.
        -- destruct (any_raised calls); [|exact Hlast].
           destruct Hlast as (before & call & -> & Hr & Hb).
           exists ((email, Returned false) :: before), call. auto.
      * exists [(email, Raised exc)], (List.filter (should_delete config) rest).
        cbn. rewrite Nat.add_0_r. repeat split.
        exists [], (email, Raised exc). auto.
    + apply IH.
Qed.

(** C1 (as amended): [clean] never propagates an error.  If enumerating
    the mailbox raises, it returns 0 and deletes nothing.  Otherwise it
    calls the deletion on the selected emails in order; the returned
    value counts exactly the calls that returned success; a call that
    raises is the last one made, so the selected emails after it are not
    processed, and when no call raises every selected email is
    processed. *)
Theorem clean_stops_at_first_failure {S : Type} (p : EmailProvider S)
    (config : CleanConfig) (st : S) :
  let run := clean (recording p) config (st, []) in
  let log := snd (snd run) in
  fst run = fst (clean p config st) /\
  fst run = successes log /\
  match fst (get_all_emails p st) with
  | Raised _ => fst run = 0%nat /\ log = []
  | Returned emails =>
      exists skipped,
        List.filter (should_delete config) emails = map fst log ++ skipped /\
        if any_raised log
        then exists before call,
               log = before ++ [call] /\ raised (snd call) = true /\
               any_raised before = false
        else skipped = []
  end.
Proof.
  unfold Cleaner.clean. cbn [recording get_all_emails].
  destruct (get_all_emails p st) as [[emails|exc] st1].
  - destruct (clean_loop_recording p config emails 0%nat st1 [])
      as (calls & skipped & Hrun & Hcount & Hsel & Hlast).
    cbn zeta. rewrite Hrun, Hcount. cbn [fst snd app].
    repeat split. exists skipped. split; assumption.
  - cbn. auto.
Qed.

End WithClock.

(** The run of [clean] on two read messages when the deletion of the
    first raises: nothing is counted and the second is never tried. *)
Lemma clean_abort_trace :
  clean parsedate_example t_2026_11_03
    (recording (callback_provider
                  (Returned [read_email "1"; read_email "2"]) failing_delete))
    read_policy (tt, [])
  = (0%nat, (tt, [(read_email "1", Raised "HttpError")])) /\
  should_delete parsedate_example t_2026_11_03 read_policy (read_email "2")
  = true /\
  failing_delete (read_email "2") = Returned true.
Proof. repeat split; vm_compute; reflexivity. Qed.

(** [test_clean] of [tests/test_cleaner.py]: emails 1, 2 and 3 are
    deleted, in this order, and 3 is returned. *)
Example test_clean :
  clean parsedate_mock t_2026_11_03
    (recording (callback_provider (Returned test_emails)
                                  (fun _ => Returned true)))
    test_cleaning_config (tt, [])
  = (3%nat, (tt, map (fun email => (email, Returned true))
                     (firstn 3 test_emails))).
Proof. vm_compute. reflexivity. Qed.

(** C1 (as stated) fails when the deletion of the first of two read
    messages raises: the loop is left, the second message, whose deletion
    would succeed, is not processed, and 0 is returned where one deletion
    would succeed. *)
Lemma clean_isolates_failures_cex :
  ~ (forall (parsedate_to_datetime : string -> option datetime) (now : Z)
            (all_emails : list Email) (policy : CleanConfig)
            (delete_fn : Email -> outcome bool),
       fst (clean parsedate_to_datetime now
              (callback_provider (Returned all_emails) delete_fn) policy tt)
       = length (List.filter
                   (fun email =>
                      should_delete parsedate_to_datetime now policy email
                      && succeeded (delete_fn email))
                   all_emails)).
Proof.
  intros H.
  specialize (H parsedate_example t_2026_11_03
                [read_email "1"; read_email "2"] read_policy failing_delete).
  vm_compute in H. discriminate H.
Qed.

(** C10: a policy with [delete_older_than] 0 decides as the same policy
    without the key; the age check is skipped, so the decision depends
    neither on the date parser nor on the clock; and with no other rule
    switched on the policy deletes nothing. *)
Theorem zero_days_is_no_age_rule
    (parsedate_to_datetime parsedate' : string -> option datetime)
    (now now' : Z) (config : CleanConfig) (email : Email) :
  should_delete parsedate_to_datetime now
    (set_delete_older_than config (Some 0%Z)) email
  = should_delete parsedate_to_datetime now
    (set_delete_older_than config None) email /\
  should_delete parsedate_to_datetime now
    (set_delete_older_than config (Some 0%Z)) email
  = should_delete parsedate' now'
    (set_delete_older_than config (Some 0%Z)) email /\
  should_delete parsedate_to_datetime now
    {| delete_newsletters := false;
       newsletter_domains := newsletter_domains config;
       delete_older_than := Some 0%Z;
       delete_read := false |} email = false.
Proof.
  unfold should_delete.
  cbn [set_delete_older_than delete_older_than delete_newsletters
       delete_read newsletter_domains Z.eqb negb andb].
  repeat split.
Qed.

(** C4 (as stated) fails on [{'delete_older_than': 0}]: the key is set
    and the email of 2020 is older than 0 days, yet it is kept. *)
Lemma should_delete_zero_days_cex :
  ~ (forall (parsedate_to_datetime : string -> option datetime) (now : Z)
            (config : CleanConfig) (email : Email),
       should_delete parsedate_to_datetime now config email = true <->
       (delete_newsletters config = true /\
        is_newsletter config email = true) \/
       (exists days, delete_older_than config = Some days /\
          is_too_old parsedate_to_datetime now email days = true) \/
       (delete_read config = true /\ is_read email = true)).
Proof.
  intros H.
  destruct (H parsedate_example t_2026_11_03 zero_days_policy old_email_naive)
    as [_ Hback].
  assert (Hdel : should_delete parsedate_example t_2026_11_03
                   zero_days_policy old_email_naive = true).
  { apply Hback. right. left. exists 0%Z. split; reflexivity. }
  vm_compute in Hdel. discriminate Hdel.
Qed.

(** C8, at an email of 2020-03-16 10:00:00 +0000 seen on 2026-11-03 with
    a limit of 30 days: the date parses, its instant is earlier than the
    cutoff, and [is_too_old] answers false. *)
Theorem is_too_old_offset_date :
  parsedate_example (date old_email) = Some (Aware t_2020_03_16) /\
  (t_2020_03_16 < t_2026_11_03 - 30 * us_per_day)%Z /\
  is_too_old parsedate_example t_2026_11_03 old_email 30 = false.
Proof. repeat split; vm_compute; reflexivity. Qed.

End CleanerSpec.

(* ===================================================================== *)
(** ** Further properties of the label matcher *)
(* ===================================================================== *)

Module ClassifierMore.
Import PyStr PyStrFacts Classifier Examples Notions.

Lemma lower_char_idem (c : ascii) : lower_char (lower_char c) = lower_char c.
Proof. destruct c as [[] [] [] [] [] [] [] []]; reflexivity. Qed.

Lemma lower_idem (s : string) : lower (lower s) = lower s.
Proof.
  induction s as [|c s IH]; [reflexivity|].
  cbn [lower]. now rewrite lower_char_idem, IH.
Qed.

Lemma existsb_map_lower (f : string -> bool) (l : list string) :
  (forall x, f (lower x) = f x) ->
  existsb f (map lower l) = existsb f l.
Proof.
  intros Hf. induction l as [|x l IH]; [reflexivity|].
  cbn [map existsb]. now rewrite Hf, IH.
Qed.

Lemma truthy_lower_entries (field : option (list string)) :
  truthy (lower_entries field) = truthy field.
Proof. destruct field as [[|x l]|]; reflexivity. Qed.

Lemma entries_lower_entries (field : option (list string)) :
  entries (lower_entries field) = map lower (entries field).
Proof. destruct field; reflexivity. Qed.

(** Every piece of a split is free of the separator. *)
Lemma split_pieces_lack (sep : ascii) (s piece : string) :
  In piece (split sep s) -> lacks sep piece = true.
Proof.
  revert piece. induction s as [|c s IH]; intros piece; cbn [split].
  - intros [<- | []]. reflexivity.
  - destruct (Ascii.eqb c sep) eqn:Hc.
    + intros [<- | H]; [reflexivity | now apply IH].
    + pose proof (split_nonempty sep s) as Hne.
      destruct (split sep s) as [|p ps]; [contradiction|].
      intros [<- | H].
      * cbn [lacks]. rewrite Hc. cbn [negb andb]. apply IH. now left.
      * apply IH. now right.
Qed.

Section WithParseaddr.

Variable parseaddr : string -> string * string.

Lemma rule_based_filter (R : list LabelConfig) (E : Email) :
  rule_based_classify parseaddr R E
  = map name
      (List.filter (fun r => matches_criteria parseaddr E (criteria r)) R).
Proof.
  induction R as [|r R IH]; [reflexivity|].
  cbn [rule_based_classify List.filter].
  destruct (matches_criteria parseaddr E (criteria r)); cbn [map];
    now rewrite IH.
Qed.

(** The labels of [classify] are exactly the names of the rules whose
    criteria the email matches. *)
Theorem classify_exact (R : list LabelConfig) (E : Email) (n : string) :
  In n (classify parseaddr R E) <->
  exists r, In r R /\ name r = n /\
            matches_criteria parseaddr E (criteria r) = true.
Proof.
  rewrite ClassifierSpec.classify_eq, ClassifierSpec.list_of_set_in,
    rule_based_filter, in_map_iff.
  split.
  - intros (r & Hn & Hr). apply filter_In in Hr as [Hin Hm]. eauto.
  - intros (r & Hin & Hn & Hm). exists r. split; [exact Hn|].
    apply filter_In. auto.
Qed.

(** [_rule_based_classify] keeps the order of the rules and lists a name
    once for every matching rule that bears it; it works rule by rule, so
    the labels of two rule lists put end to end are the two label lists
    put end to end; [classify] has the same names, each once. *)
Theorem rule_based_classify_app (R1 R2 : list LabelConfig) (E : Email) :
  rule_based_classify parseaddr (R1 ++ R2) E
  = rule_based_classify parseaddr R1 E ++ rule_based_classify parseaddr R2 E
  /\ length (rule_based_classify parseaddr R1 E) <= length R1
  /\ length (classify parseaddr R1 E)
     <= length (rule_based_classify parseaddr R1 E).
Proof.
  split; [|split].
  - rewrite !rule_based_filter, List.filter_app, map_app. reflexivity.
  - rewrite rule_based_filter, length_map. apply List.filter_length_le.
  - rewrite ClassifierSpec.classify_eq.
    apply NoDup_incl_length.
    + apply NoDup_ListNoDup, ClassifierSpec.list_of_set_nodup.
    + intros x Hx. exact (proj1 (ClassifierSpec.list_of_set_in _ x) Hx).
Qed.

Lemma keyword_block_spec (text : string) (field : option (list string)) :
  (if truthy field then
     if negb (existsb (fun keyword => contains (lower keyword) (lower text))
                      (entries field))
     then false else true
   else true) = true <->
  (truthy field = true -> keyword_listed text (entries field)).
Proof.
  unfold keyword_listed.
  destruct (truthy field); [|split; [discriminate | reflexivity]].
  set (hit := fun keyword : string => _).
  assert (Hiff : existsb hit (entries field) = true <->
                 exists k, In k (entries field) /\
                           occurs_in (lower k) (lower text)).
  { rewrite any_spec. split; intros (k & Hk & H); exists k;
      (split; [exact Hk|]); now apply contains_spec. }
  destruct (existsb hit (entries field)); cbn [negb].
  - split; [intros _ _; now apply Hiff | reflexivity].
  - split; [discriminate|]. intros H.
    apply Hiff, H. reflexivity.
Qed.


Lemma from_domain_block_spec (E : Email) (c : Criteria) :
  from_domain_ok parseaddr E c = true <->
  (truthy (c_from_domain c) = true ->
   domain_listed parseaddr E (entries (c_from_domain c))).
Proof.
  unfold from_domain_ok, domain_listed.
  destruct (truthy (c_from_domain c)); [|split; [discriminate | reflexivity]].
  set (hit := fun domain : string => _).
  assert (Hiff : existsb hit (entries (c_from_domain c)) = true <->
                 exists d, In d (entries (c_from_domain c)) /\
                   has_suffix (lower (extract_domain parseaddr (from_ E)))
                              (lower d)).
  { rewrite any_spec. split; intros (d & Hd & H); exists d;
      (split; [exact Hd|]); now apply endswith_spec. }
  destruct (existsb hit (entries (c_from_domain c))); cbn [negb].
  - split; [intros _ _; now apply Hiff | reflexivity].
  - split; [discriminate|]. intros H.
    apply Hiff, H. reflexivity.
Qed.


(** A criteria dictionary whose four tested lists are all missing or
    empty matches every email, whatever [from_name] holds. *)
Theorem empty_rule_matches_all (E : Email) (c : Criteria) :
  truthy (c_from c) = false ->
  truthy (c_from_domain c) = false ->
  truthy (c_subject_contains c) = false ->
  truthy (c_body_contains c) = false ->
  matches_criteria parseaddr E c = true.
Proof.
  intros H1 H2 H3 H4.
  rewrite ClassifierSpec.matches_criteria_conj.
  unfold from_ok, from_domain_ok, subject_ok, body_ok.
  now rewrite H1, H2, H3, H4.
Qed.

(** Matching does not look at the case of the configured entries, nor at
    the case of the subject and the body. *)
Theorem matching_ignores_case (E : Email) (c : Criteria) :
  matches_criteria parseaddr E (lower_criteria c)
  = matches_criteria parseaddr E c /\
  matches_criteria parseaddr (lower_email E) c
  = matches_criteria parseaddr E c.
Proof.
  split.
  - rewrite !ClassifierSpec.matches_criteria_conj.
    unfold from_ok, from_domain_ok, subject_ok, body_ok,
      check_alternate_from_criteria.
    cbn [lower_criteria c_from c_from_domain c_from_name
         c_subject_contains c_body_contains].
    rewrite !truthy_lower_entries, !entries_lower_entries.
    rewrite !existsb_map_lower; [reflexivity | ..];
      intros x; now rewrite lower_idem.
  - rewrite !ClassifierSpec.matches_criteria_conj.
    unfold from_ok, from_domain_ok, subject_ok, body_ok,
      check_alternate_from_criteria.
    cbn [lower_email subject body from_].
    now rewrite !lower_idem.
Qed.

Lemma contains_empty (hay : string) : contains EmptyString hay = true.
Proof. apply contains_spec. exists EmptyString, hay. reflexivity. Qed.

Lemma endswith_empty (s : string) : endswith s EmptyString = true.
Proof.
  apply endswith_spec. exists s.
  induction s as [|c s IH]; [reflexivity|].
  rewrite append_cons. now f_equal.
Qed.

(** An empty string among the entries of [from_domain],
    [subject_contains] or [body_contains] makes that test pass for every
    email. *)
Theorem empty_entry_matches_all (E : Email) (c : Criteria) :
  (In EmptyString (entries (c_from_domain c)) ->
   from_domain_ok parseaddr E c = true) /\
  (In EmptyString (entries (c_subject_contains c)) ->
   subject_ok E c = true) /\
  (In EmptyString (entries (c_body_contains c)) ->
   body_ok E c = true).
Proof.
  split; [|split]; intros Hin.
  - apply from_domain_block_spec. intros _.
    exists EmptyString. split; [exact Hin|].
    apply endswith_spec, endswith_empty.
  - unfold subject_ok. cbv zeta. apply keyword_block_spec. intros _.
    exists EmptyString. split; [exact Hin|].
    apply contains_spec, contains_empty.
  - unfold body_ok. cbv zeta. apply keyword_block_spec. intros _.
    exists EmptyString. split; [exact Hin|].
    apply contains_spec, contains_empty.
Qed.

(** The domain the label matcher extracts never holds an [@]. *)
Theorem extract_domain_no_at (from_field : string) :
  lacks "@"%char (extract_domain parseaddr from_field) = true.
Proof.
  unfold extract_domain.
  destruct (split "@"%char (snd (parseaddr from_field)) !! 1%nat)
    as [domain|] eqn:Hpiece; [|reflexivity].
  apply (split_pieces_lack _ (snd (parseaddr from_field))).
  apply list_elem_of_In. now apply list_elem_of_lookup_2 in Hpiece.
Qed.

End WithParseaddr.

Lemma empty_rule_matches_all_witness :
  matches_criteria parseaddr_model
    (plain_email "friend@example.com" "Hello" "Just saying hello")
    (set_from_name empty_domain_criteria (Some ["boss"])) = true.
Proof.
  apply (empty_rule_matches_all parseaddr_model); reflexivity.
Defined.

Lemma empty_entry_matches_all_witness :
  from_domain_ok parseaddr_model
    (plain_email "friend@example.com" "Hello" "Just saying hello")
    {| c_from := None; c_from_domain := Some ["company.com"; ""];
       c_from_name := None; c_subject_contains := None;
       c_body_contains := None |} = true.
Proof.
  apply (proj1 (empty_entry_matches_all parseaddr_model
           (plain_email "friend@example.com" "Hello" "Just saying hello")
           {| c_from := None; c_from_domain := Some ["company.com"; ""];
              c_from_name := None; c_subject_contains := None;
              c_body_contains := None |})).
  right. left. reflexivity.
Defined.

End ClassifierMore.

(* ===================================================================== *)
(** ** Further properties of the retention evaluator *)
(* ===================================================================== *)

Module CleanerMore.
Import PyStr PyStrFacts Cleaner Examples Notions.

Lemma lacks_app (c : ascii) (a b : string) :
  lacks c (a +:+ b) = lacks c a && lacks c b.
Proof.
  induction a as [|x a IH]; [reflexivity|].
  rewrite append_cons. cbn [lacks]. now rewrite IH, andb_assoc.
Qed.

Lemma span_until_stop (stop : ascii) (run rest : string) :
  lacks stop run = true ->
  span_until stop (run +:+ String stop rest) = (run, String stop rest).
Proof.
  induction run as [|c run IH].
  - intros _. rewrite append_empty. cbn [span_until].
    now rewrite Ascii.eqb_refl.
  - cbn [lacks]. rewrite andb_true_iff, negb_true_iff. intros [Hc Hrun].
    rewrite append_cons. cbn [span_until]. now rewrite Hc, (IH Hrun).
Qed.

(** The search finds the address of a header [display <addr> rest]. *)
Lemma re_search_angle_header (display addr rest : string) :
  lacks "<"%char display = true ->
  addr <> EmptyString ->
  lacks ">"%char addr = true ->
  re_search_angle (display +:+ String "<"%char (addr +:+ String ">"%char rest))
  = Some addr.
Proof.
  intros Hdisplay Hne Haddr. induction display as [|c display IH].
  - rewrite append_empty. cbn [re_search_angle].
    rewrite Ascii.eqb_refl, (span_until_stop _ _ _ Haddr).
    destruct addr; [contradiction | reflexivity].
  - cbn [lacks] in Hdisplay.
    apply andb_true_iff in Hdisplay as [Hc Hrest].
    apply negb_true_iff in Hc.
    rewrite append_cons. cbn [re_search_angle]. rewrite Hc. now apply IH.
Qed.

(** The pieces of [a @ b] end with the pieces of [b]. *)
Lemma split_after_sep (sep : ascii) (a b : string) :
  exists f fs, split sep (a +:+ String sep b) = (f :: fs) ++ split sep b.
Proof.
  induction a as [|c a (f & fs & IH)].
  - exists EmptyString, []. rewrite append_empty. cbn [split].
    now rewrite Ascii.eqb_refl.
  - rewrite append_cons. cbn [split]. rewrite IH.
    destruct (Ascii.eqb c sep).
    + exists EmptyString, (f :: fs). reflexivity.
    + exists (String c f), fs. reflexivity.
Qed.

Lemma last_split_after_sep (sep : ascii) (a b : string) :
  lacks sep b = true ->
  last (split sep (a +:+ String sep b)) = Some b.
Proof.
  intros Hb. destruct (split_after_sep sep a b) as (f & fs & ->).
  rewrite (split_lacks _ _ Hb). apply last_snoc.
Qed.

(** On a header [display <user@dom> rest] the retention evaluator
    extracts [dom]: the address is the first bracketed group and the
    domain is what follows its last [@]. *)
Theorem extract_domain_angle_header (display user dom rest : string) :
  lacks "<"%char display = true ->
  lacks ">"%char user = true ->
  lacks ">"%char dom = true ->
  lacks "@"%char dom = true ->
  extract_domain (display +:+ "<" +:+ user +:+ "@" +:+ dom +:+ ">" +:+ rest)
  = dom.
Proof.
  intros Hdisplay Huser Hdom Hat.
  unfold extract_domain, sender_address.
  change (display +:+ "<" +:+ user +:+ "@" +:+ dom +:+ ">" +:+ rest)
    with (display +:+ String "<"%char
            (user +:+ "@" +:+ dom +:+ String ">"%char rest)).
  replace (user +:+ "@" +:+ dom +:+ String ">"%char rest)
    with ((user +:+ String "@"%char dom) +:+ String ">"%char rest).
  - rewrite re_search_angle_header.
    + now rewrite (last_split_after_sep _ _ _ Hat).
    + exact Hdisplay.
    + destruct user; discriminate.
    + rewrite lacks_app. cbn [lacks]. now rewrite Huser, Hdom.
  - clear. induction user as [|c user IH]; [reflexivity|].
    rewrite !append_cons. now f_equal.
Qed.

Lemma extract_domain_angle_header_witness :
  extract_domain "John Doe <john.doe@example.com>" = "example.com".
Proof.
  apply (extract_domain_angle_header "John Doe " "john.doe" "example.com"
           EmptyString); reflexivity.
Defined.

(** The domain the retention evaluator extracts never holds an [@]. *)
Theorem cleaner_domain_no_at (from_field : string) :
  lacks "@"%char (extract_domain from_field) = true.
Proof.
  unfold extract_domain.
  destruct (last (split "@"%char (sender_address from_field)))
    as [domain|] eqn:Hlast; [|reflexivity].
  apply last_Some in Hlast as [front Hsplit].
  apply (ClassifierMore.split_pieces_lack _ (sender_address from_field)).
  rewrite Hsplit. apply in_or_app. right. now left.
Qed.

(** A subject that holds one of the six keywords written in any case
    makes the email a newsletter. *)
Theorem newsletter_keyword_any_case
    (config : CleanConfig) (email : Email) (before w after : string) :
  In (lower w) newsletter_keywords ->
  subject email = before +:+ w +:+ after ->
  is_newsletter config email = true.
Proof.
  intros Hk Hsubject. unfold is_newsletter.
  destruct (existsb _ (newsletter_domains config)); [reflexivity|].
  replace (existsb _ newsletter_keywords) with true; [reflexivity|].
  symmetry. apply any_spec. exists (lower w). split; [exact Hk|].
  apply contains_spec. exists (lower before), (lower after).
  now rewrite Hsubject, !lower_app.
Qed.

Lemma newsletter_keyword_any_case_witness :
  is_newsletter no_policy
    (plain_email "boss@company.com" "Invoice UPDATED" "See attachment")
  = true.
Proof.
  apply (newsletter_keyword_any_case no_policy
           (plain_email "boss@company.com" "Invoice UPDATED" "See attachment")
           "Invoice " "UPDATE" "D").
  - right. right. left. reflexivity.
  - reflexivity.
Defined.

Section WithClock.

Variable parsedate_to_datetime : string -> option datetime.
Variable now : Z.

Local Abbreviation is_too_old := (is_too_old parsedate_to_datetime now).
Local Abbreviation should_delete := (should_delete parsedate_to_datetime now).
Local Abbreviation clean_loop := (clean_loop parsedate_to_datetime now).
Local Abbreviation clean := (clean parsedate_to_datetime now).
Local Abbreviation selected := (selected parsedate_to_datetime now).

(** An empty string among [newsletter_domains] makes every email a
    newsletter, and with [delete_newsletters] on every email is
    selected for deletion. *)
Theorem empty_newsletter_domain_selects_all
    (config : CleanConfig) (email : Email) :
  In EmptyString (newsletter_domains config) ->
  is_newsletter config email = true /\
  (delete_newsletters config = true -> should_delete config email = true).
Proof.
  intros Hin.
  assert (Hnews : is_newsletter config email = true).
  { unfold is_newsletter.
    replace (existsb _ (newsletter_domains config)) with true; [reflexivity|].
    symmetry. apply any_spec. exists EmptyString. split; [exact Hin|].
    apply ClassifierMore.contains_empty. }
  split; [exact Hnews|].
  intros Hon. unfold Cleaner.should_delete. now rewrite Hon, Hnews.
Qed.

(** Raising the age limit never makes an email too old: what is too old
    for a limit is too old for every smaller limit that is not
    negative. *)
Theorem is_too_old_monotone (email : Email) (days days' : Z) :
  (0 <= days <= days')%Z ->
  (0 <= now < datetime_span)%Z ->
  is_too_old email days' = true ->
  is_too_old email days = true.
Proof.
  intros Hdays Hnow. unfold Cleaner.is_too_old, timedelta_days, datetime_sub.
  destruct (parsedate_to_datetime (date email)) as [[t|t]|];
    [|destruct (Z.abs days' <=? 999999999)%Z;
      [destruct ((0 <=? now - days' * us_per_day)
                 && (now - days' * us_per_day <? datetime_span))%Z|];
      discriminate | discriminate].
  destruct (Z.leb_spec (Z.abs days') 999999999); [|discriminate].
  destruct (Z.leb_spec 0 (now - days' * us_per_day));
    [|discriminate].
  destruct (Z.ltb_spec (now - days' * us_per_day) datetime_span);
    [|discriminate].
  cbn [andb datetime_lt]. intros Hlt. apply Z.ltb_lt in Hlt.
  unfold datetime_span, us_per_day in *.
  destruct (Z.leb_spec (Z.abs days) 999999999); [|lia].
  destruct (Z.leb_spec 0 (now - days * 86400000000)); [|lia].
  destruct (Z.ltb_spec (now - days * 86400000000) (3652059 * 86400000000));
    [|lia].
  cbn [andb datetime_lt]. apply Z.ltb_lt. lia.
Qed.

(** Beyond 999999999 days in either direction the limit cannot be built
    and no email is too old. *)
Theorem is_too_old_limit_overflow (email : Email) (days : Z) :
  (999999999 < Z.abs days)%Z ->
  is_too_old email days = false.
Proof.
  intros Hbig. unfold Cleaner.is_too_old, timedelta_days.
  destruct (parsedate_to_datetime (date email)); [|reflexivity].
  destruct (Z.leb_spec (Z.abs days) 999999999); [lia | reflexivity].
Qed.

(** When the policy selects none of the emails, the loop calls nothing
    and keeps its count. *)
Lemma clean_loop_none_selected {S : Type} (p : EmailProvider S)
    (config : CleanConfig) (emails : list Email) (count : nat) (st : S) :
  selected config emails = [] ->
  clean_loop p config emails count st = (count, st).
Proof.
  unfold Notions.selected.
  induction emails as [|email rest IH]; [reflexivity|].
  cbn [List.filter Cleaner.clean_loop].
  destruct (should_delete config email); [discriminate | exact IH].
Qed.

(** With no rule switched on, [clean] deletes nothing: whatever the
    provider and the mailbox, it makes no deletion call and returns 0. *)
Theorem no_rule_no_deletion {S : Type} (p : EmailProvider S)
    (config : CleanConfig) (st : S) :
  delete_newsletters config = false ->
  delete_older_than config = None \/ delete_older_than config = Some 0%Z ->
  delete_read config = false ->
  fst (clean (recording p) config (st, [])) = 0%nat /\
  snd (snd (clean (recording p) config (st, []))) = [].
Proof.
  intros Hnews Hage Hread.
  assert (Hnone : forall emails, selected config emails = []).
  { intros emails. unfold Notions.selected.
    induction emails as [|email rest IH]; [reflexivity|].
    cbn [List.filter]. unfold Cleaner.should_delete at 1.
    rewrite Hnews, Hread. destruct Hage as [-> | ->]; exact IH. }
  unfold Cleaner.clean. cbn [recording get_all_emails].
  destruct (get_all_emails p st) as [[emails|exc] st1].
  - rewrite (clean_loop_none_selected _ _ _ _ _ (Hnone emails)). auto.
  - auto.
Qed.

(** [clean] calls the deletion only on emails of the mailbox that the
    policy selects. *)
Theorem clean_deletes_only_selected {S : Type} (p : EmailProvider S)
    (config : CleanConfig) (st : S) (emails : list Email)
    (call : Email * outcome bool) :
  fst (get_all_emails p st) = Returned emails ->
  In call (snd (snd (clean (recording p) config (st, [])))) ->
  In (fst call) emails /\ should_delete config (fst call) = true.
Proof.
  unfold Cleaner.clean. cbn [recording get_all_emails].
  destruct (get_all_emails p st) as [r st1]. cbn [fst]. intros ->.
  destruct (CleanerSpec.clean_loop_recording parsedate_to_datetime now
              p config emails 0%nat st1 [])
    as (calls & skipped & Hrun & _ & Hsel & _).
  rewrite Hrun. cbn [fst snd app]. intros Hin.
  apply filter_In. rewrite Hsel. apply in_or_app. left.
  now apply in_map.
Qed.

(** The count [clean] returns is at most the number of deletion calls
    it made, which is at most the number of selected emails and so at
    most the size of the mailbox. *)
Theorem clean_count_bounded {S : Type} (p : EmailProvider S)
    (config : CleanConfig) (st : S) (emails : list Email) :
  fst (get_all_emails p st) = Returned emails ->
  fst (clean (recording p) config (st, []))
  <= length (snd (snd (clean (recording p) config (st, [])))) /\
  length (snd (snd (clean (recording p) config (st, []))))
  <= length (selected config emails) /\
  length (selected config emails) <= length emails.
Proof.
  unfold Cleaner.clean. cbn [recording get_all_emails].
  destruct (get_all_emails p st) as [r st1]. cbn [fst]. intros ->.
  destruct (CleanerSpec.clean_loop_recording parsedate_to_datetime now
              p config emails 0%nat st1 [])
    as (calls & skipped & Hrun & _ & Hsel & _).
  rewrite Hrun. cbn [fst snd app Nat.add]. unfold Notions.selected.
  split; [|split].
  - apply List.filter_length_le.
  - rewrite Hsel, length_app, length_map. lia.
  - apply List.filter_length_le.
Qed.

Lemma clean_loop_callback_no_raise (all_emails : outcome (list Email))
    (delete_fn : Email -> outcome bool) (config : CleanConfig)
    (emails : list Email) :
  (forall email, In email emails -> should_delete config email = true ->
                 raised (delete_fn email) = false) ->
  forall count,
  clean_loop (callback_provider all_emails delete_fn) config emails count tt
  = (count + length (List.filter
                       (fun email => should_delete config email
                                     && succeeded (delete_fn email))
                       emails), tt).
Proof.
  induction emails as [|email rest IH]; intros Hok count.
  - cbn. now rewrite Nat.add_0_r.
  - cbn [Cleaner.clean_loop List.filter].
    assert (Hrest : forall e, In e rest -> should_delete config e = true ->
                              raised (delete_fn e) = false).
    { intros e He. apply Hok. now right. }
    destruct (should_delete config email) eqn:Hsel; cbn [andb].
    + cbn [callback_provider delete_email].
      pose proof (Hok email (or_introl eq_refl) Hsel) as Hraise.
      destruct (delete_fn email) as [[|]|exc]; cbn [succeeded length].
      * rewrite (IH Hrest). f_equal. lia.
      * apply (IH Hrest).
      * discriminate Hraise.
    + apply (IH Hrest).
Qed.

(** When no deletion of a selected email raises, [clean] returns the
    number of selected emails whose deletion returned success. *)
Theorem clean_without_failure (all_emails : list Email)
    (policy : CleanConfig) (delete_fn : Email -> outcome bool) :
  (forall email, In email all_emails ->
     should_delete policy email = true ->
     raised (delete_fn email) = false) ->
  fst (clean (callback_provider (Returned all_emails) delete_fn) policy tt)
  = length (List.filter
              (fun email => should_delete policy email
                            && succeeded (delete_fn email))
              all_emails).
Proof.
  intros Hok. unfold Cleaner.clean. cbn [callback_provider get_all_emails].
  now rewrite (clean_loop_callback_no_raise _ _ _ _ Hok).
Qed.

Lemma clean_loop_callback_raise (all_emails : outcome (list Email))
    (delete_fn : Email -> outcome bool) (config : CleanConfig)
    (before after : list Email) (email : Email) :
  (forall e, In e before -> should_delete config e = true ->
             raised (delete_fn e) = false) ->
  should_delete config email = true ->
  raised (delete_fn email) = true ->
  forall count,
  clean_loop (callback_provider all_emails delete_fn) config
    (before ++ email :: after) count tt
  = (count + length (List.filter
                       (fun e => should_delete config e
                                 && succeeded (delete_fn e))
                       before), tt).
Proof.
  intros Hok Hsel Hraise.
  induction before as [|e rest IH]; intros count.
  - cbn [app Cleaner.clean_loop List.filter length].
    rewrite Hsel. cbn [callback_provider delete_email].
    destruct (delete_fn email) as [b|exc]; [discriminate Hraise|].
    now rewrite Nat.add_0_r.
  - cbn [app Cleaner.clean_loop List.filter].
    assert (Hrest : forall x, In x rest -> should_delete config x = true ->
                              raised (delete_fn x) = false).
    { intros x Hx. apply Hok. now right. }
    destruct (should_delete config e) eqn:Hsel'; cbn [andb].
    + cbn [callback_provider delete_email].
      pose proof (Hok e (or_introl eq_refl) Hsel') as Hr.
      destruct (delete_fn e) as [[|]|exc]; cbn [succeeded length].
      * rewrite (IH Hrest). f_equal. lia.
      * apply (IH Hrest).
      * discriminate Hr.
    + apply (IH Hrest).
Qed.

(** When the deletion of a selected email raises and none did before,
    [clean] returns the number of successful deletions among the emails
    before it; the emails after it do not count. *)
Theorem clean_up_to_failure (before after : list Email) (email : Email)
    (policy : CleanConfig) (delete_fn : Email -> outcome bool) :
  (forall e, In e before -> should_delete policy e = true ->
             raised (delete_fn e) = false) ->
  should_delete policy email = true ->
  raised (delete_fn email) = true ->
  fst (clean (callback_provider (Returned (before ++ email :: after))
                                delete_fn) policy tt)
  = length (List.filter
              (fun e => should_delete policy e && succeeded (delete_fn e))
              before).
Proof.
  intros Hok Hsel Hraise.
  unfold Cleaner.clean. cbn [callback_provider get_all_emails].
  now rewrite (clean_loop_callback_raise _ _ _ _ _ _ Hok Hsel Hraise).
Qed.

End WithClock.

Lemma empty_newsletter_domain_selects_all_witness :
  is_newsletter
    {| delete_newsletters := true; newsletter_domains := [""];
       delete_older_than := None; delete_read := false |}
    (plain_email "friend@example.com" "Hello" "Just saying hello") = true /\
  should_delete parsedate_example t_2026_11_03
    {| delete_newsletters := true; newsletter_domains := [""];
       delete_older_than := None; delete_read := false |}
    (plain_email "friend@example.com" "Hello" "Just saying hello") = true.
Proof.
  pose proof (empty_newsletter_domain_selects_all
                parsedate_example t_2026_11_03
                {| delete_newsletters := true; newsletter_domains := [""];
                   delete_older_than := None; delete_read := false |}
                (plain_email "friend@example.com" "Hello" "Just saying hello")
                (or_introl eq_refl)) as [Hnews Hdel].
  split; [exact Hnews | apply Hdel; reflexivity].
Defined.

Lemma is_too_old_monotone_witness :
  is_too_old parsedate_example t_2026_11_03 old_email_naive 30 = true.
Proof.
  apply (is_too_old_monotone parsedate_example t_2026_11_03
           old_email_naive 30 60).
  - lia.
  - unfold t_2026_11_03, datetime_span, us_per_day. lia.
  - reflexivity.
Defined.

Lemma is_too_old_limit_overflow_witness :
  is_too_old parsedate_example t_2026_11_03 old_email_naive 1000000000
  = false.
Proof.
  apply is_too_old_limit_overflow. lia.
Defined.

Lemma is_too_old_aware_witness :
  is_too_old parsedate_example t_2026_11_03 old_email 30 = false.
Proof.
  apply (CleanerSpec.is_too_old_aware parsedate_example t_2026_11_03
           old_email 30 t_2020_03_16).
  reflexivity.
Defined.

Lemma is_too_old_naive_witness :
  is_too_old parsedate_example t_2026_11_03 old_email_naive 30 = true <->
  (t_2020_03_16 < t_2026_11_03 - 30 * us_per_day)%Z.
Proof.
  apply (CleanerSpec.is_too_old_naive parsedate_example t_2026_11_03
           old_email_naive 30 t_2020_03_16).
  - reflexivity.
  - lia.
  - unfold t_2026_11_03, datetime_span, us_per_day. lia.
Defined.

Lemma no_rule_no_deletion_witness :
  fst (clean parsedate_mock t_2026_11_03
         (recording (callback_provider (Returned test_emails)
                                       (fun _ => Returned true)))
         zero_days_policy (tt, [])) = 0%nat /\
  snd (snd (clean parsedate_mock t_2026_11_03
              (recording (callback_provider (Returned test_emails)
                                            (fun _ => Returned true)))
              zero_days_policy (tt, []))) = [].
Proof.
  apply no_rule_no_deletion.
  - reflexivity.
  - right. reflexivity.
  - reflexivity.
Defined.

Lemma clean_deletes_only_selected_witness :
  In (test_email "1" "Newsletter" "info@newsletter.com"
        "Here are the latest news" "Sat, 24 Oct 2026 12:00:00 " ["INBOX"])
     test_emails /\
  should_delete parsedate_mock t_2026_11_03 test_cleaning_config
    (test_email "1" "Newsletter" "info@newsletter.com"
       "Here are the latest news" "Sat, 24 Oct 2026 12:00:00 " ["INBOX"])
  = true.
Proof.
  apply (clean_deletes_only_selected parsedate_mock t_2026_11_03
           (callback_provider (Returned test_emails) (fun _ => Returned true))
           test_cleaning_config tt test_emails
           (test_email "1" "Newsletter" "info@newsletter.com"
              "Here are the latest news" "Sat, 24 Oct 2026 12:00:00 "
              ["INBOX"], Returned true)).
  - reflexivity.
  - vm_compute. left. reflexivity.
Defined.

Lemma clean_count_bounded_witness :
  fst (clean parsedate_mock t_2026_11_03
         (recording (callback_provider (Returned test_emails) failing_delete))
         test_cleaning_config (tt, []))
  <= length (snd (snd (clean parsedate_mock t_2026_11_03
         (recording (callback_provider (Returned test_emails) failing_delete))
         test_cleaning_config (tt, [])))).
Proof.
  apply (clean_count_bounded parsedate_mock t_2026_11_03
           (callback_provider (Returned test_emails) failing_delete)
           test_cleaning_config tt test_emails).
  reflexivity.
Defined.

Lemma clean_without_failure_witness :
  fst (clean parsedate_mock t_2026_11_03
         (callback_provider (Returned test_emails) (fun _ => Returned true))
         test_cleaning_config tt)
  = length (List.filter
              (fun email =>
                 should_delete parsedate_mock t_2026_11_03
                   test_cleaning_config email
                 && succeeded (Returned true))
              test_emails).
Proof.
  apply (clean_without_failure parsedate_mock t_2026_11_03 test_emails
           test_cleaning_config (fun _ => Returned true)).
  intros email _ _. reflexivity.
Defined.

Lemma clean_up_to_failure_witness :
  fst (clean parsedate_example t_2026_11_03
         (callback_provider
            (Returned ([read_email "2"] ++ read_email "1" :: [read_email "3"]))
            failing_delete)
         read_policy tt)
  = length (List.filter
              (fun e =>
                 should_delete parsedate_example t_2026_11_03 read_policy e
                 && succeeded (failing_delete e))
              [read_email "2"]).
Proof.
  apply (clean_up_to_failure parsedate_example t_2026_11_03
           [read_email "2"] [read_email "3"] (read_email "1")
           read_policy failing_delete).
  - intros e [<- | []] _. reflexivity.
  - reflexivity.
  - reflexivity.
Defined.

End CleanerMore.

(* ===================================================================== *)
(** ** The provider factory, the Gmail body and the IMAP provider *)
(* ===================================================================== *)

Module ProviderSpec.
Import PyStr PyStrFacts Provider Examples.

(** The provider name the factory starts from. *)
Local Abbreviation named config :=
  (lower (match provider config with Some p => p | None => "auto" end)).

(** The factory instantiates the Gmail class iff the [gmail] section is
    there and either the provider is named gmail, in any case, or it is
    auto (or not named) and the username of the [other] section holds
    [@gmail.com]. *)
Theorem get_email_provider_gmail_iff (config : EmailConfig) (g : GmailSection) :
  get_email_provider config = Returned (GmailProvider g) <->
  gmail config = Some g /\
  (named config = "gmail" \/
   (named config = "auto" /\
    occurs_in "@gmail.com" (other_username config))).
Proof.
  unfold get_email_provider. rewrite <- contains_spec.
  destruct (String.eqb_spec (named config) "auto") as [Hauto | Hauto].
  - rewrite Hauto.
    destruct (contains "@gmail.com" (other_username config)).
    + cbn [String.eqb Ascii.eqb Bool.eqb andb].
      destruct (gmail config) as [g'|].
      * split.
        -- intros [= <-]. split; [reflexivity | right; split; reflexivity].
        -- intros [[= <-] _]. reflexivity.
      * split; [discriminate | intros [[=] _]].
    + cbn [String.eqb Ascii.eqb Bool.eqb andb].
      destruct (other config); (split; [discriminate|]);
        intros [_ [[=] | [_ [=]]]].
  - destruct (String.eqb_spec (named config) "gmail") as [Hg | Hg].
    + destruct (gmail config) as [g'|].
      * split.
        -- intros [= <-]. split; [reflexivity | now left].
        -- intros [[= <-] _]. reflexivity.
      * split; [discriminate | intros [[=] _]].
    + destruct (other config); (split; [discriminate|]);
        intros [_ [H | [H _]]]; contradiction.
Qed.

(** Auto-detection reads the [other] section only: when that section is
    missing the factory raises [KeyError], even with a [gmail] section
    in the configuration. *)
Theorem auto_detection_needs_other (config : EmailConfig) :
  named config = "auto" ->
  other config = None ->
  get_email_provider config = Raised "KeyError".
Proof.
  intros Hauto Hother. unfold get_email_provider, other_username.
  rewrite Hauto, Hother. reflexivity.
Qed.

Lemma auto_detection_needs_other_witness :
  get_email_provider
    {| provider := None; other := None;
       gmail := Some {| token_file := "token.pickle";
                        credentials_file := "credentials.json" |} |}
  = Raised "KeyError".
Proof.
  apply auto_detection_needs_other; reflexivity.
Defined.

(** Every provider name other than gmail and auto, in any case, selects
    the IMAP class with the [other] section. *)
Theorem unknown_provider_is_imap (config : EmailConfig) (o : OtherSection) :
  named config <> "gmail" ->
  named config <> "auto" ->
  other config = Some o ->
  get_email_provider config = Returned (ImapProvider o).
Proof.
  intros Hg Hauto Hother. unfold get_email_provider.
  destruct (String.eqb_spec (named config) "auto"); [contradiction|].
  destruct (String.eqb_spec (named config) "gmail"); [contradiction|].
  now rewrite Hother.
Qed.

Lemma unknown_provider_is_imap_witness :
  get_email_provider
    {| provider := Some "Outlook";
       other := Some {| imap_server := "imap.example.com";
                        username := Some "me@gmail.com" |};
       gmail := None |}
  = Returned (ImapProvider {| imap_server := "imap.example.com";
                              username := Some "me@gmail.com" |}).
Proof.
  apply unknown_provider_is_imap; [discriminate | discriminate | reflexivity].
Defined.

Section WithDecoder.

Variable b64_utf8 : string -> outcome string.

Lemma first_plain_part_skip (before : list Part) (rest : list Part) :
  (forall q, In q before -> mimeType q <> "text/plain") ->
  first_plain_part b64_utf8 (before ++ rest) = first_plain_part b64_utf8 rest.
Proof.
  induction before as [|q before IH]; intros Hnot; [reflexivity|].
  cbn [app first_plain_part].
  destruct (String.eqb_spec (mimeType q) "text/plain") as [Heq | _].
  - exfalso. apply (Hnot q); [now left | exact Heq].
  - apply IH. intros x Hx. apply Hnot. now right.
Qed.

(** The body of a message with parts is the decoded first part of type
    text/plain: the parts before it are passed over, the parts after it
    and the payload's own data are not looked at. *)
Theorem get_email_body_first_plain
    (payload : Payload) (before after : list Part) (part : Part) :
  parts payload = Some (before ++ part :: after) ->
  (forall q, In q before -> mimeType q <> "text/plain") ->
  mimeType part = "text/plain" ->
  get_email_body b64_utf8 payload = decode_part b64_utf8 part.
Proof.
  intros Hparts Hnot Hplain. unfold get_email_body. rewrite Hparts.
  rewrite (first_plain_part_skip _ _ Hnot). cbn [first_plain_part].
  now rewrite Hplain.
Qed.

(** A message with parts none of which is of type text/plain has the
    empty body, whatever data the payload itself carries; the decoder is
    not called. *)
Theorem get_email_body_no_plain (payload : Payload) (ps : list Part) :
  parts payload = Some ps ->
  (forall q, In q ps -> mimeType q <> "text/plain") ->
  get_email_body b64_utf8 payload = Returned EmptyString.
Proof.
  intros Hparts Hnot. unfold get_email_body. rewrite Hparts.
  rewrite <- (app_nil_r ps). now rewrite (first_plain_part_skip _ _ Hnot).
Qed.

End WithDecoder.

Lemma lacks_replace (old new : ascii) (s : string) :
  old <> new -> lacks old (replace old new s) = true.
Proof.
  intros Hne. induction s as [|c s IH]; [reflexivity|].
  cbn [replace lacks]. rewrite IH, andb_true_r.
  destruct (Ascii.eqb_spec c old) as [-> | Hc].
  - apply negb_true_iff, Ascii.eqb_neq. congruence.
  - now apply negb_true_iff, Ascii.eqb_neq.
Qed.

Lemma lacks_replace_other (c old new : ascii) (s : string) :
  c <> new -> lacks c s = true -> lacks c (replace old new s) = true.
Proof.
  intros Hne. induction s as [|x s IH]; [reflexivity|].
  cbn [replace lacks]. rewrite !andb_true_iff, !negb_true_iff.
  intros [Hx Hs]. split; [|now apply IH].
  destruct (Ascii.eqb x old); [now apply Ascii.eqb_neq | exact Hx].
Qed.

(** The decoder only ever sees data free of [-] and [_]: two decoders
    that agree on such data give the same body. *)
Theorem decode_data_standard_alphabet
    (b64_utf8 b64_utf8' : string -> outcome string)
    (field : option string) :
  (forall data, lacks "-"%char data = true -> lacks "_"%char data = true ->
                b64_utf8 data = b64_utf8' data) ->
  decode_data b64_utf8 field = decode_data b64_utf8' field.
Proof.
  intros Hagree. destruct field as [data|]; [|reflexivity].
  cbn [decode_data]. apply Hagree.
  - apply lacks_replace_other; [discriminate|].
    apply lacks_replace. discriminate.
  - apply lacks_replace. discriminate.
Qed.

Lemma replace_lacks (old new : ascii) (s : string) :
  lacks old s = true -> replace old new s = s.
Proof.
  induction s as [|c s IH]; [reflexivity|].
  cbn [lacks replace]. rewrite andb_true_iff, negb_true_iff.
  intros [-> Hs]. now rewrite (IH Hs).
Qed.

Lemma get_email_body_first_plain_witness :
  get_email_body (fun data => Returned data)
    {| parts := Some [ {| mimeType := "text/html"; body_data := Some "PGI-" |};
                       {| mimeType := "text/plain"; body_data := Some "aGk_" |};
                       {| mimeType := "text/plain"; body_data := Some "eW8=" |} ];
       payload_data := None |}
  = decode_part (fun data => Returned data)
      {| mimeType := "text/plain"; body_data := Some "aGk_" |}.
Proof.
  apply (get_email_body_first_plain (fun data => Returned data) _
           [ {| mimeType := "text/html"; body_data := Some "PGI-" |} ]
           [ {| mimeType := "text/plain"; body_data := Some "eW8=" |} ]).
  - reflexivity.
  - intros q [<- | []]. discriminate.
  - reflexivity.
Defined.

Lemma get_email_body_no_plain_witness :
  get_email_body (fun data => Returned data)
    {| parts := Some [ {| mimeType := "text/html"; body_data := Some "PGI-" |} ];
       payload_data := Some "aGk_" |}
  = Returned EmptyString.
Proof.
  apply (get_email_body_no_plain (fun data => Returned data) _
           [ {| mimeType := "text/html"; body_data := Some "PGI-" |} ]).
  - reflexivity.
  - intros q [<- | []]. discriminate.
Defined.

Lemma decode_data_standard_alphabet_witness :
  decode_data (fun data => Returned data) (Some "aGk_-w")
  = decode_data (fun data => Returned (replace "-"%char "+"%char data))
      (Some "aGk_-w").
Proof.
  apply decode_data_standard_alphabet.
  intros data Hdash _. now rewrite (replace_lacks _ _ _ Hdash).
Defined.

Section WithServer.

Context {S : Type}.
Variable srv : ImapServer S.

(** When the connection is missing and cannot be made, every operation
    answers [False] and makes no call on the server beyond the attempt
    to connect. *)
Theorem disconnected_operations_fail
    (email : Email) (labels : list string) (folder : string) (s : S) :
  fst (connect srv s) = false ->
  apply_labels srv email labels (false, s) = (false, connect srv s) /\
  mark_as_processed srv email (false, s) = (false, connect srv s) /\
  delete_email srv email (false, s) = (false, connect srv s) /\
  move_to_folder srv email folder (false, s) = (false, connect srv s).
Proof.
  unfold apply_labels, mark_as_processed, delete_email, move_to_folder.
  cbn [ensure_conn]. destruct (connect srv s) as [conn s0]. cbn [fst].
  intros ->. auto.
Qed.

Lemma apply_labels_loop_none (ident : string) (labels : list string) (s : S) :
  (forall label, In label labels ->
     existsb (String.eqb (upper label)) imap_flags = false) ->
  apply_labels_loop srv ident labels s = (Returned tt, s).
Proof.
  induction labels as [|label rest IH]; intros Hnone; [reflexivity|].
  cbn [apply_labels_loop]. rewrite (Hnone label (or_introl eq_refl)).
  apply IH. intros l Hl. apply Hnone. now right.
Qed.

(** Labels that are not one of the five IMAP flags are dropped without a
    word: when no label is a flag, [apply_labels] on a connected
    provider answers [True] and leaves the server as it was. *)
Theorem apply_labels_drops_other_labels
    (email : Email) (labels : list string) (s : S) :
  (forall label, In label labels ->
     existsb (String.eqb (upper label)) imap_flags = false) ->
  apply_labels srv email labels (true, s) = (true, (true, s)).
Proof.
  intros Hnone. unfold apply_labels. cbn [ensure_conn negb].
  now rewrite (apply_labels_loop_none _ _ _ Hnone).
Qed.

Lemma apply_labels_loop_calls (ident : string) (labels : list string) :
  forall (s : S) (log : imap_log),
  exists calls,
    snd (snd (apply_labels_loop (recording_server srv) ident labels (s, log)))
    = log ++ calls /\
    forall call, In call calls ->
      exists label, In label labels /\
        existsb (String.eqb (upper label)) imap_flags = true /\
        fst call = Store ident (String "\"%char label).
Proof.
  induction labels as [|label rest IH]; intros s log.
  - exists []. cbn. rewrite app_nil_r. split; [reflexivity | intros c []].
  - cbn [apply_labels_loop].
    destruct (existsb (String.eqb (upper label)) imap_flags) eqn:Hflag.
    + cbn [recording_server store].
      destruct (store srv ident (String "\"%char label) s) as [[u|exc] s1].
      * destruct (IH s1 (log ++ [(Store ident (String "\"%char label),
                                  answer (Returned u))]))
          as (calls & Hlog & Hcalls).
        exists ((Store ident (String "\"%char label),
                 answer (Returned u)) :: calls).
        split; [now rewrite Hlog, <- app_assoc|].
        intros call [<- | Hin].
        -- exists label. repeat split; [now left | exact Hflag].
        -- destruct (Hcalls call Hin) as (l & Hl & Hrest).
           exists l. split; [now right | exact Hrest].
      * exists [(Store ident (String "\"%char label), None)].
        split; [reflexivity|].
        intros call [<- | []].
        exists label. repeat split; [now left | exact Hflag].
    + destruct (IH s log) as (calls & Hlog & Hcalls).
      exists calls. split; [exact Hlog|].
      intros call Hin. destruct (Hcalls call Hin) as (l & Hl & Hrest).
      exists l. split; [now right | exact Hrest].
Qed.

(** On a connected provider [apply_labels] only ever stores flags: each
    call it makes is a [store] of a backslash and a label of the list
    that is, in upper case, one of the five IMAP flags. *)
Theorem apply_labels_only_flags
    (email : Email) (labels : list string) (s : S)
    (call : imap_call * option string) :
  In call (calls_of (apply_labels (recording_server srv) email labels)
                    true s) ->
  exists label, In label labels /\
    existsb (String.eqb (upper label)) imap_flags = true /\
    fst call = Store (msg_id email) (String "\"%char label).
Proof.
  unfold calls_of, apply_labels. cbn [ensure_conn negb].
  destruct (apply_labels_loop_calls (msg_id email) labels s [])
    as (calls & Hlog & Hcalls).
  destruct (apply_labels_loop (recording_server srv) (msg_id email) labels
              (s, [])) as [[u|exc] [s1 log]];
    cbn [snd app] in *; subst log; apply Hcalls.
Qed.

(** [move_to_folder] never flags a message deleted unless the copy went
    through: every [store] it makes comes after a [copy] of the same
    message that answered OK, and every [expunge] after a [store] of
    [\Deleted] on that message that returned.  It answers [True] exactly
    when the copy answered OK and then [store] and [expunge] both
    returned without raising, in this order; what [store] and [expunge]
    answered is not looked at. *)
Theorem move_to_folder_copies_first
    (email : Email) (folder : string) (conn : bool) (s : S) :
  let log := calls_of (move_to_folder (recording_server srv) email folder)
                      conn s in
  (forall ident flag r, In (Store ident flag, r) log ->
     In (Copy (msg_id email) folder, Some "OK") log) /\
  (forall r, In (Expunge, r) log ->
     exists typ, In (Store (msg_id email) "\Deleted", Some typ) log) /\
  (fst (move_to_folder (recording_server srv) email folder (conn, (s, [])))
   = true <->
   exists before typ typ',
     log = before ++ [ (Copy (msg_id email) folder, Some "OK");
                       (Store (msg_id email) "\Deleted", Some typ);
                       (Expunge, Some typ') ]).
Proof.
  unfold calls_of, move_to_folder.
  assert (Hconn : exists before s0 c,
            ensure_conn (recording_server srv) (conn, (s, []))
            = (c, (s0, before)) /\
            forall call, In call before -> fst call = Connect).
  { destruct conn; cbn [ensure_conn recording_server connect].
    - exists [], s, true. split; [reflexivity | intros c []].
    - destruct (connect srv s) as [ok s0]. eexists _, s0, ok.
      split; [reflexivity|]. intros c [<- | []]. reflexivity. }
  destruct Hconn as (before & s0 & c & -> & Hbefore).
  assert (Hlast : forall (l l' : imap_log) (x y : imap_call * option string),
            l ++ [x] = l' ++ [y] -> x = y).
  { intros l l' x y H. now apply app_inj_tail in H. }
  destruct c; cbn [negb snd fst].
  - cbn [recording_server copy store expunge].
    destruct (copy srv (msg_id email) folder s0) as [[typ|exc] s1];
      [destruct (String.eqb_spec typ "OK") as [-> | Htyp];
       [destruct (store srv (msg_id email) "\Deleted" s1) as [[u|exc] s2];
        [destruct (expunge srv s2) as [[u'|exc] s3]|]|]|];
      cbn [answer snd fst]; rewrite <- ?app_assoc; cbn [app].
    + (* copy OK, store and expunge returned *)
      split; [|split].
      * intros _ _ _ _. apply in_or_app. right. now left.
      * intros _ _. exists u. apply in_or_app. right. right. now left.
      * split; [intros _; now exists before, u, u' | reflexivity].
    + (* expunge raised *)
      split; [|split].
      * intros _ _ _ _. apply in_or_app. right. now left.
      * intros _ _. exists u. apply in_or_app. right. right. now left.
      * split; [discriminate|]. intros (l & t & t' & H).
        change (before ++ [(Copy (msg_id email) folder, Some "OK");
                           (Store (msg_id email) "\Deleted", Some u);
                           (Expunge, None)])
          with (before ++ [(Copy (msg_id email) folder, Some "OK");
                           (Store (msg_id email) "\Deleted", Some u)]
                       ++ [(Expunge, None)]) in H.
        change (l ++ [(Copy (msg_id email) folder, Some "OK");
                      (Store (msg_id email) "\Deleted", Some t);
                      (Expunge, Some t')])
          with (l ++ [(Copy (msg_id email) folder, Some "OK");
                      (Store (msg_id email) "\Deleted", Some t)]
                  ++ [(Expunge, Some t')]) in H.
        rewrite !app_assoc in H. apply Hlast in H. discriminate H.
    + (* store raised *)
      split; [|split].
      * intros _ _ _ _. apply in_or_app. right. now left.
      * intros r H. apply in_app_or in H as [H | H];
          [apply Hbefore in H; discriminate H|].
        cbn [In] in H. destruct H as [H | [H | []]]; discriminate H.
      * split; [discriminate|]. intros (l & t & t' & H).
        change (before ++ [(Copy (msg_id email) folder, Some "OK");
                           (Store (msg_id email) "\Deleted", None)])
          with (before ++ [(Copy (msg_id email) folder, Some "OK")]
                       ++ [(Store (msg_id email) "\Deleted", None)]) in H.
        change (l ++ [(Copy (msg_id email) folder, Some "OK");
                      (Store (msg_id email) "\Deleted", Some t);
                      (Expunge, Some t')])
          with (l ++ [(Copy (msg_id email) folder, Some "OK");
                      (Store (msg_id email) "\Deleted", Some t)]
                  ++ [(Expunge, Some t')]) in H.
        rewrite !app_assoc in H. apply Hlast in H. discriminate H.
    + (* copy answered something else *)
      split; [|split].
      * intros ident flag r H. apply in_app_or in H as [H | H];
          [apply Hbefore in H; discriminate H|].
        cbn [In] in H. destruct H as [H | []]; discriminate H.
      * intros r H. apply in_app_or in H as [H | H];
          [apply Hbefore in H; discriminate H|].
        cbn [In] in H. destruct H as [H | []]; discriminate H.
      * split; [discriminate|]. intros (l & t & t' & H).
        change (l ++ [(Copy (msg_id email) folder, Some "OK");
                      (Store (msg_id email) "\Deleted", Some t);
                      (Expunge, Some t')])
          with (l ++ [(Copy (msg_id email) folder, Some "OK");
                      (Store (msg_id email) "\Deleted", Some t)]
                  ++ [(Expunge, Some t')]) in H.
        rewrite !app_assoc in H. apply Hlast in H. discriminate H.
    + (* copy raised *)
      split; [|split].
      * intros ident flag r H. apply in_app_or in H as [H | H];
          [apply Hbefore in H; discriminate H|].
        cbn [In] in H. destruct H as [H | []]; discriminate H.
      * intros r H. apply in_app_or in H as [H | H];
          [apply Hbefore in H; discriminate H|].
        cbn [In] in H. destruct H as [H | []]; discriminate H.
      * split; [discriminate|]. intros (l & t & t' & H).
        change (l ++ [(Copy (msg_id email) folder, Some "OK");
                      (Store (msg_id email) "\Deleted", Some t);
                      (Expunge, Some t')])
          with (l ++ [(Copy (msg_id email) folder, Some "OK");
                      (Store (msg_id email) "\Deleted", Some t)]
                  ++ [(Expunge, Some t')]) in H.
        rewrite !app_assoc in H. apply Hlast in H. discriminate H.
  - split; [|split].
    + intros ident flag r H. apply Hbefore in H. discriminate H.
    + intros r H. apply Hbefore in H. discriminate H.
    + split; [discriminate|]. intros (l & t & t' & H).
      assert (Hin : In (Expunge, Some t') before).
      { rewrite H. apply in_or_app. right. right. right. now left. }
      apply Hbefore in Hin. discriminate Hin.
Qed.

(** Wired to the repository's provider, [clean] deletes nothing:
    the provider has no [get_all_emails], the lookup raises, and [clean]
    returns 0 with the provider and the server untouched, for every
    policy, date parser and clock. *)
Theorem clean_with_repository_provider
    (parsedate_to_datetime : string -> option datetime) (now : Z)
    (config : CleanConfig) (st : imap_state) :
  Cleaner.clean parsedate_to_datetime now (as_email_provider srv) config st
  = (0%nat, st).
Proof. reflexivity. Qed.

End WithServer.

(** A server that refuses the flag does not stop the move: [store]
    answers [NO], the provider goes on to [expunge] and answers [True],
    with the message copied and the original left in place. *)
Example move_to_folder_ignores_refusal :
  move_to_folder (recording_server read_only_server)
    (plain_email "a@b.org" "Hello" "Hi") "Archive" (true, (tt, []))
  = (true, (true, (tt, [ (Copy "1" "Archive", Some "OK");
                         (Store "1" "\Deleted", Some "NO");
                         (Expunge, Some "OK") ]))).
Proof. reflexivity. Qed.

Lemma disconnected_operations_fail_witness :
  apply_labels offline_server (plain_email "a@b.org" "Hello" "Hi")
    ["Seen"] (false, tt) = (false, (false, tt)) /\
  mark_as_processed offline_server (plain_email "a@b.org" "Hello" "Hi")
    (false, tt) = (false, (false, tt)) /\
  delete_email offline_server (plain_email "a@b.org" "Hello" "Hi")
    (false, tt) = (false, (false, tt)) /\
  move_to_folder offline_server (plain_email "a@b.org" "Hello" "Hi")
    "Archive" (false, tt) = (false, (false, tt)).
Proof.
  apply (disconnected_operations_fail offline_server
           (plain_email "a@b.org" "Hello" "Hi") ["Seen"] "Archive" tt).
  reflexivity.
Defined.

Lemma apply_labels_drops_other_labels_witness :
  apply_labels willing_server (plain_email "a@b.org" "Hello" "Hi")
    ["Important"; "Work"] (true, tt) = (true, (true, tt)).
Proof.
  apply apply_labels_drops_other_labels.
  intros label [<- | [<- | []]]; reflexivity.
Defined.

Lemma apply_labels_only_flags_witness :
  exists label, In label ["Important"; "Seen"] /\
    existsb (String.eqb (upper label)) imap_flags = true /\
    fst (Store "1" "\Seen", Some "OK")
    = Store (msg_id (plain_email "a@b.org" "Hello" "Hi"))
            (String "\"%char label).
Proof.
  apply (apply_labels_only_flags willing_server
           (plain_email "a@b.org" "Hello" "Hi") ["Important"; "Seen"] tt
           (Store "1" "\Seen", Some "OK")).
  vm_compute. left. reflexivity.
Defined.

End ProviderSpec.

(* ===================================================================== *)
(** ** The notifier *)
(* ===================================================================== *)

Module NotifierSpec.
Import PyStr PyStrFacts Notifier Examples.

Lemma length_append (a b : string) :
  String.length (a +:+ b) = (String.length a + String.length b)%nat.
Proof.
  induction a as [|c a IH]; [reflexivity|].
  rewrite append_cons. cbn [String.length]. now rewrite IH.
Qed.

Lemma length_take_chars (n : nat) (s : string) :
  String.length (take_chars n s) = Nat.min n (String.length s).
Proof.
  revert s. induction n as [|n IH]; intros [|c s]; cbn; auto.
Qed.

(** The Pushover message carries at most the first 200 characters of the
    body: its length is the length of the sender header, plus the body's
    length capped at 200, plus 11. *)
Theorem pushover_message_length (email_data : Email) :
  String.length (pushover_message email_data)
  = (String.length (from_ email_data)
     + Nat.min 200 (String.length (body email_data)) + 11)%nat.
Proof.
  unfold pushover_message.
  rewrite !length_append, length_take_chars. cbn [String.length nl]. lia.
Qed.

Section WithTransports.

Context {S : Type}.
Variable transports : Transports S.
Variable whatsapp_pictograph : string.
Variable config : NotifyConfig.

Local Abbreviation send_notification :=
  (send_notification transports whatsapp_pictograph config).

(** A method other than pushover, email, sms and whatsapp, written
    exactly so, sends nothing: the answer is [False] and no service is
    called. *)
Theorem unsupported_method_sends_nothing (email_data : Email) (st : S) :
  ~ In (notification_method config) ["pushover"; "email"; "sms"; "whatsapp"] ->
  send_notification email_data st = (false, st).
Proof.
  intros Hnot. unfold Notifier.send_notification.
  destruct (String.eqb_spec (notification_method config) "pushover") as [H|_];
    [exfalso; apply Hnot; rewrite H; cbn; auto|].
  destruct (String.eqb_spec (notification_method config) "email") as [H|_];
    [exfalso; apply Hnot; rewrite H; cbn; auto|].
  destruct (String.eqb_spec (notification_method config) "sms") as [H|_];
    [exfalso; apply Hnot; rewrite H; cbn; auto|].
  destruct (String.eqb_spec (notification_method config) "whatsapp") as [H|_];
    [exfalso; apply Hnot; rewrite H; cbn; auto|].
  reflexivity.
Qed.

(** With the sms method, which is also the method of a configuration
    that names none, and with the whatsapp method, a provider other than
    twilio, in any case, sends nothing. *)
Theorem unsupported_messaging_provider (email_data : Email) (st : S) :
  (notification_method config = "sms" ->
   lower (match provider (section_or no_messaging (sms config)) with
          | Some p => p
          | None => "twilio"
          end) <> "twilio" ->
   send_notification email_data st = (false, st)) /\
  (notification_method config = "whatsapp" ->
   lower (match provider (section_or no_messaging (whatsapp config)) with
          | Some p => p
          | None => "twilio"
          end) <> "twilio" ->
   send_notification email_data st = (false, st)).
Proof.
  split; intros Hm Hp; unfold Notifier.send_notification; rewrite Hm;
    cbn [String.eqb Ascii.eqb Bool.eqb andb].
  - unfold send_sms_notification. cbv zeta.
    now destruct (String.eqb_spec
                    (lower (match provider (section_or no_messaging (sms config)) with
                            | Some p => p
                            | None => "twilio"
                            end)) "twilio").
  - unfold send_whatsapp_notification. cbv zeta.
    now destruct (String.eqb_spec
                    (lower (match provider (section_or no_messaging (whatsapp config)) with
                            | Some p => p
                            | None => "twilio"
                            end)) "twilio").
Qed.

(** With the pushover method the answer is [True] iff the service
    returns a result whose status is [Success]; another status or an
    exception gives [False]. *)
Theorem pushover_success_iff (email_data : Email) (st : S) :
  notification_method config = "pushover" ->
  fst (send_notification email_data st) = true <->
  exists st',
    pushover_notify transports
      (pushover_message email_data) (pushover_title email_data)
      (user_key (section_or no_pushover (pushover config)))
      (api_token (section_or no_pushover (pushover config))) st
    = (Returned "Success", st').
Proof.
  intros Hm. unfold Notifier.send_notification. rewrite Hm.
  cbn [String.eqb Ascii.eqb Bool.eqb andb].
  unfold send_pushover_notification. cbv zeta.
  destruct (pushover_notify _ _ _ _ _ st) as [[status|exc] st1].
  - destruct (String.eqb_spec status "Success") as [-> | Hs]; cbn [fst].
    + split; [eauto | reflexivity].
    + split; [discriminate|]. intros (st' & [= H _]). contradiction.
  - cbn [fst]. split; [discriminate|]. intros (st' & [=]).
Qed.

End WithTransports.

Lemma unsupported_method_sends_nothing_witness :
  Notifier.send_notification (answering_transports "Success") EmptyString
    (method_config (Some "SMS") None)
    (plain_email "boss@company.com" "Urgent" "Now") tt
  = (false, tt).
Proof.
  apply unsupported_method_sends_nothing.
  cbn. intuition discriminate.
Defined.

Lemma unsupported_messaging_provider_witness :
  Notifier.send_notification (answering_transports "Success") EmptyString
    (method_config None
       (Some {| provider := Some "Nexmo"; twilio := None |}))
    (plain_email "boss@company.com" "Urgent" "Now") tt
  = (false, tt).
Proof.
  apply (proj1 (unsupported_messaging_provider
                  (answering_transports "Success") EmptyString
                  (method_config None
                     (Some {| provider := Some "Nexmo"; twilio := None |}))
                  (plain_email "boss@company.com" "Urgent" "Now") tt)).
  - reflexivity.
  - discriminate.
Defined.

Lemma pushover_success_iff_witness :
  fst (Notifier.send_notification (answering_transports "Queued") EmptyString
         (method_config (Some "pushover") None)
         (plain_email "boss@company.com" "Urgent" "Now") tt) = true <->
  exists st',
    pushover_notify (answering_transports "Queued")
      (pushover_message (plain_email "boss@company.com" "Urgent" "Now"))
      (pushover_title (plain_email "boss@company.com" "Urgent" "Now"))
      None None tt
    = (Returned "Success", st').
Proof.
  apply (pushover_success_iff (answering_transports "Queued") EmptyString
           (method_config (Some "pushover") None)).
  reflexivity.
Defined.

End NotifierSpec.

(* ===================================================================== *)
(** ** The run of process_emails *)
(* ===================================================================== *)

Module MainSpec.
Import Main Examples.

Lemma logged_eq {S A : Type} (ev : event) (call : S -> outcome A * S)
    (s : S) (log : event_log) :
  logged ev call (s, log) = (fst (call s), (snd (call s), log ++ [ev])).
Proof. unfold logged. now destruct (call s). Qed.

Lemma marked_app (a b : event_log) : marked (a ++ b) = marked a ++ marked b.
Proof.
  induction a as [|ev a IH]; [reflexivity|].
  destruct ev; cbn [app marked]; now rewrite ?IH.
Qed.

Section WithLibrary.

Variable parseaddr : string -> string * string.
Variable parsedate_to_datetime : string -> option datetime.
Variable now : Z.

Context {S : Type}.
Variable sv : Services S.
Variable label_entries : list LabelEntry.
Variable cleaning_config : CleanConfig.

Local Abbreviation classify :=
  (Classifier.classify parseaddr (map label_config label_entries)).
Local Abbreviation run st :=
  (process_emails parseaddr parsedate_to_datetime now
     (recording_services sv) label_entries cleaning_config (st, [])).

(** The calls of the label loop are notifications of the email, each
    owed to a label whose first bearer has [notify] on. *)
Lemma notify_loop_log (email : Email) (labels : list string) :
  forall (st : S) (log : event_log),
  exists evs,
    snd (snd (notify_loop (recording_services sv) label_entries
                email labels (st, log))) = log ++ evs /\
    Forall (fun ev => ev = SendNotification email /\
              exists label entry, In label labels /\
                first_named label_entries label = Some entry /\
                notify entry = true) evs.
Proof.
  induction labels as [|label rest IH]; intros st log.
  - exists []. cbn. now rewrite app_nil_r.
  - assert (Hrest : forall st' log', exists evs,
              snd (snd (notify_loop (recording_services sv) label_entries
                          email rest (st', log'))) = log' ++ evs /\
              Forall (fun ev => ev = SendNotification email /\
                        exists l entry, In l (label :: rest) /\
                          first_named label_entries l = Some entry /\
                          notify entry = true) evs).
    { intros st' log'. destruct (IH st' log') as (evs & Hlog & Hall).
      exists evs. split; [exact Hlog|].
      eapply Forall_impl; [exact Hall|].
      intros ev [Hev (l & entry & Hl & Hrest)].
      split; [exact Hev|]. exists l, entry. split; [now right | exact Hrest]. }
    cbn [notify_loop].
    destruct (first_named label_entries label) as [entry|] eqn:Hfirst;
      [|apply Hrest].
    destruct (notify entry) eqn:Hnotify; [|apply Hrest].
    cbn [recording_services send_notification]. rewrite logged_eq.
    destruct (send_notification sv email st) as [[b|exc] st1]; cbn [fst snd].
    + destruct (Hrest st1 (log ++ [SendNotification email]))
        as (evs & Hlog & Hall).
      exists (SendNotification email :: evs).
      split; [now rewrite Hlog, <- app_assoc|].
      constructor; [|exact Hall].
      split; [reflexivity|]. exists label, entry.
      split; [now left | auto].
    + exists [SendNotification email]. split; [reflexivity|].
      constructor; [|constructor].
      split; [reflexivity|]. exists label, entry.
      split; [now left | auto].
Qed.

Lemma email_phase_mono (email : Email) (emails : list Email) (ev : event) :
  email_phase parseaddr label_entries emails ev ->
  email_phase parseaddr label_entries (email :: emails) ev.
Proof.
  destruct ev; cbn [email_phase]; try tauto;
    intuition (auto using in_cons).
Qed.

(** The calls of the loop over the emails: each as [email_phase]
    describes it; the emails marked are the first emails of the mailbox,
    in order, and all of them when the loop ends without an exception. *)
Lemma email_loop_log (emails : list Email) :
  forall (st : S) (log : event_log),
  exists evs,
    snd (snd (email_loop parseaddr (recording_services sv) label_entries
                emails (st, log))) = log ++ evs /\
    Forall (email_phase parseaddr label_entries emails) evs /\
    (exists rest, emails = marked evs ++ rest) /\
    (forall u, fst (email_loop parseaddr (recording_services sv)
                      label_entries emails (st, log)) = Returned u ->
               marked evs = emails).
Proof.
  induction emails as [|email rest IH]; intros st log.
  - exists []. cbn. rewrite app_nil_r.
    repeat split; [constructor | now exists [] ].
  - cbn [email_loop].
    set (labels := classify email).
    (* the call that applies the labels, when there are any *)
    assert (Happly : exists b st1 ev1,
              (match labels with
               | [] => (Returned true, (st, log))
               | _ :: _ => apply_labels (recording_services sv) email labels
                             (st, log)
               end) = (b, (st1, log ++ ev1)) /\
              Forall (email_phase parseaddr label_entries (email :: rest)) ev1 /\
              marked ev1 = []).
    { destruct labels as [|l ls] eqn:Hlabels.
      - exists (Returned true), st, []. rewrite app_nil_r.
        repeat split. constructor.
      - cbn [recording_services apply_labels]. rewrite logged_eq.
        eexists _, _, [ApplyLabels email (l :: ls)].
        split; [reflexivity|]. split; [|reflexivity].
        constructor; [|constructor]. cbn [email_phase].
        split; [now left|]. split; [now rewrite <- Hlabels | discriminate]. }
    destruct Happly as (b & st1 & ev1 & -> & Hev1 & Hm1).
    destruct b as [b|exc].
    2:{ exists ev1. cbn [fst snd]. repeat split; try assumption.
        - exists (email :: rest). now rewrite Hm1.
        - discriminate. }
    (* the notifications *)
    destruct (notify_loop_log email labels st1 (log ++ ev1))
      as (ev2 & Hlog2 & Hev2).
    destruct (notify_loop (recording_services sv) label_entries email labels
                (st1, log ++ ev1)) as [r2 [st2 log2]].
    cbn [snd] in Hlog2. subst log2.
    assert (Hphase2 : Forall (email_phase parseaddr label_entries
                                (email :: rest)) ev2).
    { eapply Forall_impl; [exact Hev2|].
      intros ev [-> (label & entry & Hl & Hfirst & Hnotify)].
      cbn [email_phase]. split; [now left|].
      exists label, entry. auto. }
    assert (Hm2 : marked ev2 = []).
    { clear -Hev2. induction Hev2 as [|ev evs [-> _] _ IH]; [reflexivity|].
      exact IH. }
    destruct r2 as [u2|exc].
    2:{ exists (ev1 ++ ev2). cbn [fst snd]. rewrite app_assoc.
        repeat split.
        - apply Forall_app. auto.
        - exists (email :: rest). now rewrite marked_app, Hm1, Hm2.
        - discriminate. }
    (* the mark *)
    cbn [recording_services mark_as_processed]. rewrite logged_eq.
    destruct (mark_as_processed sv email st2) as [[b3|exc] st3];
      cbn [fst snd].
    2:{ exists (ev1 ++ ev2 ++ [MarkAsProcessed email]).
        rewrite <- !app_assoc. repeat split.
        - rewrite !Forall_app. repeat split; try assumption.
          constructor; [|constructor]. cbn [email_phase]. now left.
        - exists rest. rewrite !marked_app, Hm1, Hm2. reflexivity.
        - discriminate. }
    destruct (IH st3 (((log ++ ev1) ++ ev2) ++ [MarkAsProcessed email]))
      as (ev4 & Hlog4 & Hev4 & (tail & Htail) & Hdone).
    exists (ev1 ++ ev2 ++ [MarkAsProcessed email] ++ ev4).
    split; [rewrite Hlog4, <- !app_assoc; reflexivity|].
    split; [|split].
    + rewrite !Forall_app. repeat split; try assumption.
      * constructor; [|constructor]. cbn [email_phase]. now left.
      * eapply Forall_impl; [exact Hev4|].
        intros ev. apply email_phase_mono.
    + exists tail. rewrite !marked_app, Hm1, Hm2. cbn [app marked].
      now rewrite <- Htail.
    + intros u Hu. rewrite !marked_app, Hm1, Hm2. cbn [app marked].
      now rewrite (Hdone u Hu).
Qed.

Lemma recorded_delete (email : Email) (st : S) (log : event_log) :
  Cleaner.delete_email (cleaning (recording_services sv)) email (st, log)
  = (fst (Cleaner.delete_email (cleaning sv) email st),
     (snd (Cleaner.delete_email (cleaning sv) email st),
      log ++ [DeleteEmail email])).
Proof. apply logged_eq. Qed.

Lemma recorded_get_all (st : S) (log : event_log) :
  Cleaner.get_all_emails (cleaning (recording_services sv)) (st, log)
  = (fst (Cleaner.get_all_emails (cleaning sv) st),
     (snd (Cleaner.get_all_emails (cleaning sv) st),
      log ++ [GetAllEmails])).
Proof. apply logged_eq. Qed.

Lemma clean_loop_events (emails : list Email) :
  forall (count : nat) (st : S) (log : event_log),
  exists evs,
    snd (snd (Cleaner.clean_loop parsedate_to_datetime now
                (cleaning (recording_services sv)) cleaning_config
                emails count (st, log))) = log ++ evs /\
    Forall (fun ev => is_cleaning ev = true) evs.
Proof.
  induction emails as [|email rest IH]; intros count st log.
  - exists []. cbn [Cleaner.clean_loop snd]. now rewrite app_nil_r.
  - cbn [Cleaner.clean_loop].
    destruct (Cleaner.should_delete _ _ cleaning_config email); [|apply IH].
    rewrite recorded_delete.
    destruct (Cleaner.delete_email (cleaning sv) email st) as [[[|]|exc] st1];
      cbn [fst snd].
    + destruct (IH (count + 1)%nat st1 (log ++ [DeleteEmail email]))
        as (evs & Hlog & Hall).
      exists (DeleteEmail email :: evs).
      split; [now rewrite Hlog, <- app_assoc | now constructor].
    + destruct (IH count st1 (log ++ [DeleteEmail email]))
        as (evs & Hlog & Hall).
      exists (DeleteEmail email :: evs).
      split; [now rewrite Hlog, <- app_assoc | now constructor].
    + exists [DeleteEmail email]. split; [reflexivity | now repeat constructor].
Qed.

Lemma clean_events (st : S) (log : event_log) :
  exists evs,
    snd (snd (Cleaner.clean parsedate_to_datetime now
                (cleaning (recording_services sv)) cleaning_config
                (st, log))) = log ++ evs /\
    Forall (fun ev => is_cleaning ev = true) evs.
Proof.
  unfold Cleaner.clean. rewrite recorded_get_all.
  destruct (Cleaner.get_all_emails (cleaning sv) st) as [[emails|exc] st1];
    cbn [fst snd].
  - destruct (clean_loop_events emails 0%nat st1 (log ++ [GetAllEmails]))
      as (evs & Hlog & Hall).
    exists (GetAllEmails :: evs).
    split; [now rewrite Hlog, <- app_assoc | now constructor].
  - exists [GetAllEmails]. split; [reflexivity | now repeat constructor].
Qed.

(** The shape of a run: the set-up, the fetch, the calls for the emails
    fetched, and the calls of the cleaning pass when nothing raised
    before. *)
Lemma run_shape (st : S) :
  exists head evs cevs,
    snd (snd (run st)) = head ++ evs ++ cevs /\
    Forall (fun ev => ev = Setup \/ ev = GetUnprocessedEmails) head /\
    Forall (fun ev => is_cleaning ev = true) cevs /\
    (forall exc, fst (run st) = Raised exc -> cevs = []) /\
    Forall (fun ev => exists emails,
              fst (get_unprocessed_emails sv (snd (setup sv st)))
              = Returned emails /\
              email_phase parseaddr label_entries emails ev) evs /\
    forall emails,
      fst (setup sv st) = Returned tt ->
      fst (get_unprocessed_emails sv (snd (setup sv st))) = Returned emails ->
      (exists rest, emails = marked evs ++ rest) /\
      (forall n, fst (run st) = Returned n -> marked evs = emails).
Proof.
  unfold process_emails.
  cbn [recording_services setup get_unprocessed_emails].
  rewrite logged_eq.
  destruct (setup sv st) as [[[]|exc] st0]; cbn [fst snd].
  2:{ exists [Setup], [], []. repeat split; try discriminate;
        try (repeat (apply List.Forall_cons; [solve [auto]|]); apply List.Forall_nil). }
  rewrite logged_eq.
  destruct (get_unprocessed_emails sv st0) as [[emails|exc] st1];
    cbn [fst snd app].
  2:{ exists [Setup; GetUnprocessedEmails], [], [].
      repeat split; try discriminate;
        try (repeat (apply List.Forall_cons; [solve [auto]|]); apply List.Forall_nil). }
  destruct (email_loop_log emails st1 [Setup; GetUnprocessedEmails])
    as (evs & Hlog & Hphase & Hprefix & Hdone).
  assert (Hphase' : Forall (fun ev => exists emails',
                      Returned emails = Returned emails' /\
                      email_phase parseaddr label_entries emails' ev) evs).
  { eapply Forall_impl; [exact Hphase|]. intros ev Hev. eauto. }
  destruct (email_loop parseaddr (recording_services sv) label_entries emails
              (st1, [Setup; GetUnprocessedEmails])) as [[u'|exc] [st2 log2]];
    cbn [fst snd] in *; subst log2.
  - destruct (clean_events st2 ([Setup; GetUnprocessedEmails] ++ evs))
      as (cevs & Hclog & Hcall).
    destruct (Cleaner.clean parsedate_to_datetime now
                (cleaning (recording_services sv)) cleaning_config
                (st2, [Setup; GetUnprocessedEmails] ++ evs))
      as [count [st3 log3]].
    cbn [fst snd] in *; subst log3.
    exists [Setup; GetUnprocessedEmails], evs, cevs.
    split; [now rewrite <- app_assoc|].
    split; [try (repeat (apply List.Forall_cons; [solve [auto]|]); apply List.Forall_nil)|].
    split; [exact Hcall|].
    split; [discriminate|].
    split; [exact Hphase'|].
    intros emails' _ [= <-]. split; [assumption|].
    intros n _. now apply (Hdone u').
  - exists [Setup; GetUnprocessedEmails], evs, [].
    split; [now rewrite app_nil_r|].
    split; [try (repeat (apply List.Forall_cons; [solve [auto]|]); apply List.Forall_nil)|].
    split; [constructor|].
    split; [reflexivity|].
    split; [exact Hphase'|].
    intros emails' _ [= <-]. split; [assumption | discriminate].
Qed.

Lemma in_run (st : S) (ev : event) :
  In ev (snd (snd (run st))) ->
  ev = Setup \/ ev = GetUnprocessedEmails \/
  (exists emails,
     fst (get_unprocessed_emails sv (snd (setup sv st))) = Returned emails /\
     email_phase parseaddr label_entries emails ev) \/
  (is_cleaning ev = true /\ exists n, fst (run st) = Returned n).
Proof.
  destruct (run_shape st)
    as (head & evs & cevs & -> & Hhead & Hc & Hraise & Hev & _).
  rewrite Forall_forall in Hhead, Hc, Hev.
  intros Hin. apply in_app_or in Hin as [Hin | Hin].
  - apply list_elem_of_In in Hin. destruct (Hhead _ Hin); auto.
  - apply in_app_or in Hin as [Hin | Hin].
    + apply list_elem_of_In in Hin. right. right. left. exact (Hev _ Hin).
    + right. right. right.
      split; [apply Hc; now apply list_elem_of_In|].
      destruct (fst (process_emails parseaddr parsedate_to_datetime now
                       (recording_services sv) label_entries cleaning_config
                       (st, []))) as [n|exc] eqn:Hrun.
      * now exists n.
      * rewrite (Hraise exc eq_refl) in Hin. destruct Hin.
Qed.

(** A notification is only ever sent for an email one of whose labels
    is borne first, in the order of the configuration, by an entry with
    [notify] on: among entries of the same name the first decides. *)
Theorem notifications_follow_first_rule (st : S) (email : Email) :
  In (SendNotification email) (snd (snd (run st))) ->
  notifying parseaddr label_entries email.
Proof.
  intros Hin.
  destruct (in_run st _ Hin) as [H | [H | [(emails & _ & Hphase) | [H _]]]];
    try discriminate H.
  exact (proj2 Hphase).
Qed.

(** Labels are applied as [classify] gives them, and never an empty
    list: an email without a label gets no [apply_labels] call. *)
Theorem labels_applied_as_classified
    (st : S) (email : Email) (labels : list string) :
  In (ApplyLabels email labels) (snd (snd (run st))) ->
  labels = classify email /\ labels <> [].
Proof.
  intros Hin.
  destruct (in_run st _ Hin) as [H | [H | [(emails & _ & Hphase) | [H _]]]];
    try discriminate H.
  exact (proj2 Hphase).
Qed.


(** An exception in any call ends the run: the cleaning pass is only
    entered when the set-up, the fetch and every call for the emails
    went through. *)
Theorem no_cleaning_after_exception (st : S) (ev : event) :
  In ev (snd (snd (run st))) ->
  is_cleaning ev = true ->
  exists n, fst (run st) = Returned n.
Proof.
  intros Hin Hclean.
  destruct (in_run st _ Hin)
    as [-> | [-> | [(emails & _ & Hphase) | [_ Hdone]]]];
    try discriminate Hclean; [|exact Hdone].
  destruct ev; try discriminate Hclean; destruct Hphase.
Qed.

End WithLibrary.

(** The run on one email from the boss, with the entries of the tests:
    the services, the clock and the policy of the witnesses below. *)
Local Abbreviation urgent_email :=
  (plain_email "boss@company.com" "Urgent meeting" "We need to meet ASAP").
Local Abbreviation example_run :=
  (process_emails Classifier.parseaddr_model parsedate_example t_2026_11_03
     (recording_services (willing_services [urgent_email]))
     test_label_entries no_policy (tt, [])).

Lemma notifications_follow_first_rule_witness :
  notifying Classifier.parseaddr_model test_label_entries urgent_email.
Proof.
  apply (notifications_follow_first_rule Classifier.parseaddr_model
           parsedate_example t_2026_11_03 (willing_services [urgent_email])
           test_label_entries no_policy tt urgent_email).
  vm_compute. do 3 right. left. reflexivity.
Defined.

Lemma labels_applied_as_classified_witness :
  Classifier.classify Classifier.parseaddr_model
    (map label_config test_label_entries) urgent_email
  = Classifier.classify Classifier.parseaddr_model
      (map label_config test_label_entries) urgent_email /\
  Classifier.classify Classifier.parseaddr_model
    (map label_config test_label_entries) urgent_email <> [].
Proof.
  apply (labels_applied_as_classified Classifier.parseaddr_model
           parsedate_example t_2026_11_03 (willing_services [urgent_email])
           test_label_entries no_policy tt urgent_email).
  vm_compute. do 2 right. left. reflexivity.
Defined.


Lemma no_cleaning_after_exception_witness :
  exists n, fst example_run = Returned n.
Proof.
  apply (no_cleaning_after_exception Classifier.parseaddr_model
           parsedate_example t_2026_11_03 (willing_services [urgent_email])
           test_label_entries no_policy tt GetAllEmails).
  - vm_compute. do 5 right. left. reflexivity.
  - reflexivity.
Defined.

(** The run when the notifier raises: the exception ends the run after
    the notification, the email is not marked and nothing is cleaned. *)
Example run_with_failing_notifier :
  process_emails Classifier.parseaddr_model parsedate_example t_2026_11_03
    (recording_services (failing_notifier_services [urgent_email]))
    test_label_entries no_policy (tt, [])
  = (Raised "TwilioException",
     (tt, [ Setup; GetUnprocessedEmails;
            ApplyLabels urgent_email
              (Classifier.classify Classifier.parseaddr_model
                 (map label_config test_label_entries) urgent_email);
            SendNotification urgent_email ])).
Proof. vm_compute. reflexivity. Qed.

End MainSpec.
